(** * Mephisto relay server: a shallow embedding of the socket router

    The relay is a Node.js program: an express application, a [ws]
    WebSocket server and a self re-arming timer share a handful of
    module-level variables.  Every handler runs to completion on the
    single event-loop thread, so the embedding is a state-and-exception
    monad over a record of those variables; what a handler does to the
    outside world (socket sends, timers, HTTP responses, console output)
    is recorded as a trace of effects. *)

From Stdlib Require Import String Ascii List Bool Arith NArith Lia.
Import ListNotations.
Local Open Scope string_scope.
Local Open Scope list_scope.

Set Warnings "-register-all".

(** ** JavaScript values *)

(** What [JSON.parse] can produce, together with [undefined], which shows
    up as the result of reading a property that is not there.  A number is
    kept as the text [Number.prototype.toString] prints for it: the server
    never computes with packet fields, it only compares them with its
    identifier constants and uses them as property keys. *)
Inductive value : Type :=
  | VUndefined
  | VNull
  | VBool (b : bool)
  | VNum (repr : string)
  | VStr (s : string)
  | VArr (elems : list value)
  | VObj (props : list (string * value)).

(** ** Plain objects used as maps

    An object is modelled by its own enumerable data properties, in
    creation order; members inherited from [Object.prototype] are outside
    the model. *)
Module Obj.

Definition t (V : Type) : Type := list (string * V).

Definition empty {V} : t V := [].

(** [o[k]] as a read: [None] stands for [undefined]. *)
Fixpoint get {V} (k : string) (o : t V) : option V :=
  match o with
  | [] => None
  | (k', v) :: rest => if String.eqb k k' then Some v else get k rest
  end.

(** [o[k] = v]: an existing property keeps its place. *)
Fixpoint set {V} (k : string) (v : V) (o : t V) : t V :=
  match o with
  | [] => [(k, v)]
  | (k', v') :: rest =>
      if String.eqb k k' then (k, v) :: rest else (k', v') :: set k v rest
  end.

(** [delete o[k]]. *)
Fixpoint delete {V} (k : string) (o : t V) : t V :=
  match o with
  | [] => []
  | (k', v') :: rest =>
      if String.eqb k k' then delete k rest else (k', v') :: delete k rest
  end.

(** Property enumeration puts array indices first, in ascending numeric
    order, and then the other names in creation order.  An array index
    is the canonical decimal text of an integer below 2^32 - 1. *)
Definition digit_of (c : ascii) : option N :=
  let n := N_of_ascii c in
  if ((48 <=? n) && (n <=? 57))%N then Some (n - 48)%N else None.

Fixpoint parse_digits (s : string) (acc : N) : option N :=
  match s with
  | EmptyString => Some acc
  | String c rest =>
      match digit_of c with
      | Some d => parse_digits rest (acc * 10 + d)%N
      | None => None
      end
  end.

Definition array_index (s : string) : option N :=
  match s with
  | EmptyString => None
  | String "0"%char EmptyString => Some 0%N
  | String "0"%char _ => None
  | _ =>
      match parse_digits s 0 with
      | Some n => if (n <? 4294967295)%N then Some n else None
      | None => None
      end
  end.

Fixpoint insert_index (x : N * string) (l : list (N * string)) :=
  match l with
  | [] => [x]
  | y :: rest =>
      if (fst x <=? fst y)%N then x :: l else y :: insert_index x rest
  end.

Fixpoint split_keys (ks : list string)
  : list (N * string) * list string :=
  match ks with
  | [] => ([], [])
  | k :: rest =>
      let '(idx, names) := split_keys rest in
      match array_index k with
      | Some n => (insert_index (n, k) idx, names)
      | None => (idx, k :: names)
      end
  end.

(** The keys a [for (k in o)] loop visits, in the order it visits them. *)
Definition keys {V} (o : t V) : list string :=
  let '(idx, names) := split_keys (map fst o) in
  map snd idx ++ names.

End Obj.

(** ** Conversions the source relies on *)

Definition join_with (sep : string) (parts : list string) : string :=
  match parts with
  | [] => EmptyString
  | p :: rest => fold_left (fun acc q => (acc ++ sep ++ q)%string) rest p
  end.

(** [ToString], as applied when a value is used as a property key or is
    compared with a string by [==]. *)
Fixpoint to_string (v : value) : string :=
  match v with
  | VUndefined => "undefined"
  | VNull => "null"
  | VBool true => "true"
  | VBool false => "false"
  | VNum repr => repr
  | VStr s => s
  | VArr elems =>
      join_with ","
        (map (fun e => match e with
                       | VUndefined | VNull => EmptyString
                       | _ => to_string e
                       end) elems)
  | VObj _ => "[object Object]"
  end.

(** [v == c] where [c] is one of the server's identifier constants.  None
    of them reads as a number, so a number or boolean on the left compares
    unequal ([Number(c)] is [NaN]); [null] and [undefined] equal only each
    other; arrays and objects are first turned into strings. *)
Definition loose_eq (v : value) (c : string) : bool :=
  match v with
  | VStr s => String.eqb s c
  | VArr _ | VObj _ => String.eqb (to_string v) c
  | VUndefined | VNull | VBool _ | VNum _ => false
  end.

(** [v === undefined]. *)
Definition is_undefined (v : value) : bool :=
  match v with VUndefined => true | _ => false end.

(** ** Constants of the server *)

Definition STATUS_INIT := "init".
Definition STATUS_CONNECTED := "connected".
Definition STATUS_DISCONNECTED := "disconnect".
Definition STATUS_DONE := "done".

Definition SYSTEM_SOCKET_ID := "mephisto".
Definition SERVER_SOCKET_ID := "mephisto_server".

Definition PACKET_TYPE_REQUEST_AGENT_STATUS := "request_status".
Definition PACKET_TYPE_RETURN_AGENT_STATUS := "return_status".
Definition PACKET_TYPE_INIT_DATA := "initial_data_send".
Definition PACKET_TYPE_AGENT_ACTION := "agent_action".
Definition PACKET_TYPE_NEW_AGENT := "register_agent".
Definition PACKET_TYPE_NEW_WORKER := "register_worker".
Definition PACKET_TYPE_GET_INIT_DATA := "init_data_request".
Definition PACKET_TYPE_ALIVE := "alive".
Definition PACKET_TYPE_PROVIDER_DETAILS := "provider_details".
Definition PACKET_TYPE_SUBMIT_ONBOARDING := "submit_onboarding".

(** ** Sockets, responses, agents *)

(** A socket and an HTTP response are objects owned by the libraries; the
    server only holds references to them.  What a socket reference shows
    when it is inspected ([readyState], [id]) is decided by the
    environment at the moment of the inspection. *)
Definition Socket := nat.
Definition Response := nat.

Record SocketObj : Type := mkSocketObj {
  id : value;
  readyState : nat
}.

Definition SocketEnv := Socket -> SocketObj.

(** [class LocalAgentState]: the fields its constructor sets. *)
Record LocalAgentState : Type := mkLocalAgentState {
  status : string;
  agent_id : value;
  unsent_messages : list value
}.

(** Agent records are objects too: two maps may hold the same record, so
    the maps store references into a heap of records. *)
Definition AgentRef := nat.

(** ** Exceptions and effects *)

Inductive exn : Type :=
  | SyntaxError
  | TypeError (msg : string)
  | ReferenceError (name : string)
  | TransportError (msg : string).

Inductive log_item : Type :=
  | LogText (s : string)
  | LogValue (v : value)
  | LogError (e : exn).

(** The two acknowledgement closures of [_send_message], and the two
    functions handed to [setTimeout]. *)
Inductive callback : Type :=
  | ack (socket : Socket) (packet : value)
  | ack2.

Inductive timer_fn : Type :=
  | fn_main_thread
  | fn_retry (socket : Socket) (packet : value).

Inductive Timeout : Type :=
  | mkTimeout (fn : timer_fn) (ms : nat).

Inductive effect : Type :=
  | console_log (x : log_item)
  | socket_send (socket : Socket) (packet : value) (cb : callback)
  | setTimeout (fn : timer_fn) (ms : nat)
  | res_json (res : Response) (body : value)
  | res_error (res : Response) (e : exn).

(** ** The module-level variables *)

Record ServerState : Type := mkServerState {
  agent_id_to_socket : Obj.t Socket;
  socket_id_to_agent : Obj.t AgentRef;
  mephisto_message_queue : list value;
  main_thread_timeout : option Timeout;
  mephisto_socket : option Socket;
  agent_id_to_agent : Obj.t AgentRef;
  pending_provider_requests : Obj.t Response;
  pending_init_requests : Obj.t Response;
  heap : AgentRef -> LocalAgentState
}.

(** The state the module is loaded into. *)
Definition initial_state : ServerState :=
  {| agent_id_to_socket := Obj.empty;
     socket_id_to_agent := Obj.empty;
     mephisto_message_queue := [];
     main_thread_timeout := None;
     mephisto_socket := None;
     agent_id_to_agent := Obj.empty;
     pending_provider_requests := Obj.empty;
     pending_init_requests := Obj.empty;
     heap := fun _ => mkLocalAgentState STATUS_INIT VUndefined [] |}.

Definition set_agent_id_to_socket (x : Obj.t Socket) (st : ServerState) :=
  mkServerState x (socket_id_to_agent st) (mephisto_message_queue st)
    (main_thread_timeout st) (mephisto_socket st) (agent_id_to_agent st)
    (pending_provider_requests st) (pending_init_requests st) (heap st).

Definition set_socket_id_to_agent (x : Obj.t AgentRef) (st : ServerState) :=
  mkServerState (agent_id_to_socket st) x (mephisto_message_queue st)
    (main_thread_timeout st) (mephisto_socket st) (agent_id_to_agent st)
    (pending_provider_requests st) (pending_init_requests st) (heap st).

Definition set_mephisto_message_queue (x : list value) (st : ServerState) :=
  mkServerState (agent_id_to_socket st) (socket_id_to_agent st) x
    (main_thread_timeout st) (mephisto_socket st) (agent_id_to_agent st)
    (pending_provider_requests st) (pending_init_requests st) (heap st).

Definition set_main_thread_timeout (x : option Timeout) (st : ServerState) :=
  mkServerState (agent_id_to_socket st) (socket_id_to_agent st)
    (mephisto_message_queue st) x (mephisto_socket st) (agent_id_to_agent st)
    (pending_provider_requests st) (pending_init_requests st) (heap st).

Definition set_mephisto_socket (x : option Socket) (st : ServerState) :=
  mkServerState (agent_id_to_socket st) (socket_id_to_agent st)
    (mephisto_message_queue st) (main_thread_timeout st) x
    (agent_id_to_agent st) (pending_provider_requests st)
    (pending_init_requests st) (heap st).

Definition set_agent_id_to_agent (x : Obj.t AgentRef) (st : ServerState) :=
  mkServerState (agent_id_to_socket st) (socket_id_to_agent st)
    (mephisto_message_queue st) (main_thread_timeout st) (mephisto_socket st)
    x (pending_provider_requests st) (pending_init_requests st) (heap st).

Definition set_pending_provider_requests (x : Obj.t Response)
  (st : ServerState) :=
  mkServerState (agent_id_to_socket st) (socket_id_to_agent st)
    (mephisto_message_queue st) (main_thread_timeout st) (mephisto_socket st)
    (agent_id_to_agent st) x (pending_init_requests st) (heap st).

Definition set_heap (x : AgentRef -> LocalAgentState) (st : ServerState) :=
  mkServerState (agent_id_to_socket st) (socket_id_to_agent st)
    (mephisto_message_queue st) (main_thread_timeout st) (mephisto_socket st)
    (agent_id_to_agent st) (pending_provider_requests st)
    (pending_init_requests st) x.

(** Writing one record of the heap. *)
Definition heap_write (r : AgentRef) (a : LocalAgentState)
  (h : AgentRef -> LocalAgentState) : AgentRef -> LocalAgentState :=
  fun r' => if Nat.eqb r' r then a else h r'.

(** ** The handler monad

    A handler reads and writes the module variables, emits effects and may
    throw.  An exception undoes nothing: the state and the effects reached
    before the throw stay. *)

Inductive result (A : Type) : Type :=
  | Ok (a : A)
  | Throw (e : exn).
Arguments Ok {A} a.
Arguments Throw {A} e.

Definition M (A : Type) : Type :=
  ServerState -> result A * ServerState * list effect.

Definition ret {A} (a : A) : M A := fun st => (Ok a, st, []).

Definition bind {A B} (m : M A) (k : A -> M B) : M B :=
  fun st =>
    match m st with
    | (Ok a, st1, t1) =>
        let '(r, st2, t2) := k a st1 in (r, st2, t1 ++ t2)
    | (Throw e, st1, t1) => (Throw e, st1, t1)
    end.

Definition throw {A} (e : exn) : M A := fun st => (Throw e, st, []).

Definition try_catch {A} (m : M A) (handler : exn -> M A) : M A :=
  fun st =>
    match m st with
    | (Ok a, st1, t1) => (Ok a, st1, t1)
    | (Throw e, st1, t1) =>
        let '(r, st2, t2) := handler e st1 in (r, st2, t1 ++ t2)
    end.

Definition gets {A} (f : ServerState -> A) : M A :=
  fun st => (Ok (f st), st, []).

Definition modify (f : ServerState -> ServerState) : M unit :=
  fun st => (Ok tt, f st, []).

Definition emit (e : effect) : M unit := fun st => (Ok tt, st, [e]).

Declare Scope js_scope.
Delimit Scope js_scope with js.
Notation "x <- m ;; k" := (bind m (fun x => k))
  (at level 61, m at next level, right associativity) : js_scope.
Notation "m ;; k" := (bind m (fun _ => k))
  (at level 61, right associativity) : js_scope.
Local Open Scope js_scope.

Fixpoint for_each {A} (l : list A) (body : A -> M unit) : M unit :=
  match l with
  | [] => ret tt
  | x :: rest => body x ;; for_each rest body
  end.

Fixpoint fold_m {A B} (l : list A) (body : B -> A -> M B) (acc : B) : M B :=
  match l with
  | [] => ret acc
  | x :: rest => acc' <- body acc x ;; fold_m rest body acc'
  end.

Definition state_of {A} (o : result A * ServerState * list effect) :=
  snd (fst o).
Definition trace_of {A} (o : result A * ServerState * list effect) :=
  snd o.
Definition result_of {A} (o : result A * ServerState * list effect) :=
  fst (fst o).

(** ** Language-level operations *)

(** [v[k]] for the property names the server reads.  Reading a property of
    [undefined] or [null] throws; a primitive or an array has none of
    these names. *)
Definition get_prop (v : value) (k : string) : M value :=
  match v with
  | VUndefined =>
      throw (TypeError ("Cannot read property '" ++ k ++ "' of undefined"))
  | VNull => throw (TypeError ("Cannot read property '" ++ k ++ "' of null"))
  | VObj props =>
      ret (match Obj.get k props with Some x => x | None => VUndefined end)
  | VBool _ | VNum _ | VStr _ | VArr _ => ret VUndefined
  end.

(** Reading an identifier that no enclosing scope declares. *)
Definition undeclared (name : string) : M value :=
  throw (ReferenceError name).

(** [delete v[k]]. *)
Definition delete_prop (v : value) (k : string) : value :=
  match v with
  | VObj props => VObj (Obj.delete k props)
  | _ => v
  end.

(** What [JSON.parse] makes of the text of an inbound frame. *)
Inductive message : Type :=
  | Malformed
  | Wellformed (v : value).

Definition JSON_parse (raw : message) : M value :=
  match raw with
  | Malformed => throw SyntaxError
  | Wellformed v => ret v
  end.

(** [uuidv4]: every [x] of the template becomes a random hexadecimal digit
    and the [y] one of 8, 9, a, b.  [rand i] is what the i-th evaluation
    of [(Math.random() * 16) | 0] gives, a number from 0 to 15. *)
Definition hex_digit (n : N) : ascii :=
  nth (N.to_nat n) (list_ascii_of_string "0123456789abcdef") "0"%char.

Fixpoint uuid_replace (template : string) (rand : nat -> N) (i : nat)
  : string :=
  match template with
  | EmptyString => EmptyString
  | String c rest =>
      if Ascii.eqb c "x"%char then
        String (hex_digit (rand i)) (uuid_replace rest rand (S i))
      else if Ascii.eqb c "y"%char then
        String (hex_digit (N.lor (N.land (rand i) 3) 8))
          (uuid_replace rest rand (S i))
      else String c (uuid_replace rest rand i)
  end.

Definition uuidv4 (rand : nat -> N) : string :=
  uuid_replace "xxxxxxxx-xxxx-4xxx-yxxx-xxxxxxxxxxxx" rand 0.

(** ** Agent records *)

(** The body of the class constructor. *)
Definition LocalAgentState_constructor (agent_id : value) : LocalAgentState :=
  {| status := STATUS_INIT; agent_id := agent_id; unsent_messages := [] |}.

(** [LocalAgentState(agent_id)], a plain call: a class constructor that is
    invoked without [new] throws before its body runs. *)
Definition LocalAgentState_call (agent_id : value) : M AgentRef :=
  throw (TypeError
           "Class constructor LocalAgentState cannot be invoked without 'new'").

(** [agent.get_sendable_messages()], where [agent] is what a map lookup
    returned. *)
Definition get_sendable_messages (agent : option AgentRef)
  : M (list value) :=
  match agent with
  | None =>
      throw (TypeError
               "Cannot read property 'get_sendable_messages' of undefined")
  | Some r =>
      sendable_messages <- gets (fun st => unsent_messages (heap st r)) ;;
      modify (fun st =>
                set_heap (heap_write r
                            {| status := status (heap st r);
                               agent_id := agent_id (heap st r);
                               unsent_messages := [] |} (heap st)) st) ;;
      ret sendable_messages
  end.

(** [agent.unsent_messages.push(packet)]. *)
Definition push_unsent (agent : option AgentRef) (packet : value) : M unit :=
  match agent with
  | None =>
      throw (TypeError "Cannot read property 'unsent_messages' of undefined")
  | Some r =>
      modify (fun st =>
                set_heap (heap_write r
                            {| status := status (heap st r);
                               agent_id := agent_id (heap st r);
                               unsent_messages :=
                                 unsent_messages (heap st r) ++ [packet] |}
                            (heap st)) st)
  end.

(** [agent.status]. *)
Definition read_status (agent : option AgentRef) : M string :=
  match agent with
  | None => throw (TypeError "Cannot read property 'status' of undefined")
  | Some r => gets (fun st => status (heap st r))
  end.

(** ** Sending *)

(** [_send_message(socket, packet)], up to the first [socket.send]. *)
Definition _send_message (env : SocketEnv) (socket : option Socket)
  (packet : value) : M unit :=
  match socket with
  | None => ret tt
  | Some s =>
      if Nat.eqb (readyState (env s)) 3 then ret tt
      else
        emit (console_log (LogValue packet)) ;;
        emit (socket_send s packet (ack s packet))
  end.

(** The closure [ack], run by the socket library once the first send has
    finished; [None] is [undefined]. *)
Definition run_ack (socket : Socket) (packet : value) (error : option exn)
  : M unit :=
  match error with
  | None => ret tt
  | Some _ => emit (setTimeout (fn_retry socket packet) 500)
  end.

(** The function the 500 ms timer runs. *)
Definition run_retry (socket : Socket) (packet : value) : M unit :=
  emit (socket_send socket packet ack2).

(** The closure [ack2]. *)
Definition run_ack2 (error2 : option exn) : M unit :=
  match error2 with
  | None => ret tt
  | Some e => emit (console_log (LogError e))
  end.

Definition run_callback (cb : callback) (error : option exn) : M unit :=
  match cb with
  | ack socket packet => run_ack socket packet error
  | ack2 => run_ack2 error
  end.

(** ** Packet handlers *)

(** [handle_alive(socket, alive_packet)]. *)
Definition handle_alive (env : SocketEnv) (socket : Socket)
  (alive_packet : value) : M unit :=
  sender_id <- get_prop alive_packet "sender_id" ;;
  if loose_eq sender_id SYSTEM_SOCKET_ID then
    modify (set_mephisto_socket (Some socket)) ;;
    timeout <- gets main_thread_timeout ;;
    match timeout with
    | None =>
        emit (console_log (LogText "launching main thread")) ;;
        emit (setTimeout fn_main_thread 50) ;;
        modify (set_main_thread_timeout (Some (mkTimeout fn_main_thread 50)))
    | Some _ => ret tt
    end
  else
    agent_id <- get_prop alive_packet "sender_id" ;;
    agent <- LocalAgentState_call agent_id ;;
    modify (fun st =>
              set_agent_id_to_socket
                (Obj.set (to_string agent_id) socket (agent_id_to_socket st))
                st) ;;
    modify (fun st =>
              set_socket_id_to_agent
                (Obj.set (to_string (id (env socket))) agent
                   (socket_id_to_agent st)) st) ;;
    modify (fun st =>
              set_agent_id_to_agent
                (Obj.set (to_string agent_id) agent (agent_id_to_agent st))
                st).

(** The body of the loop of [handle_get_agent_status]:
    [agent_statuses[agent_id] = agent_id_to_agent[agent_id].status]. *)
Definition status_step (acc : Obj.t value) (agent_id : string)
  : M (Obj.t value) :=
  agent <- gets (fun st => Obj.get agent_id (agent_id_to_agent st)) ;;
  s <- read_status agent ;;
  ret (Obj.set agent_id (VStr s) acc).

(** [handle_get_agent_status(status_packet)]. *)
Definition handle_get_agent_status (status_packet : value) : M unit :=
  known <- gets agent_id_to_agent ;;
  agent_statuses <- fold_m (Obj.keys known) status_step Obj.empty ;;
  let packet :=
    VObj [("packet_type", VStr PACKET_TYPE_RETURN_AGENT_STATUS);
          ("sender_id", VStr SERVER_SOCKET_ID);
          ("receiver_id", VStr SYSTEM_SOCKET_ID);
          ("data", VObj agent_statuses)] in
  modify (fun st =>
            set_mephisto_message_queue (mephisto_message_queue st ++ [packet])
              st).

(** [handle_forward(packet)].  The test reads [alive_packet], a name that
    is a parameter of [handle_alive] only. *)
Definition handle_forward (packet : value) : M unit :=
  alive_packet <- undeclared "alive_packet" ;;
  receiver_id <- get_prop alive_packet "receiver_id" ;;
  if loose_eq receiver_id SYSTEM_SOCKET_ID then
    modify (fun st =>
              set_mephisto_message_queue
                (mephisto_message_queue st ++ [packet]) st)
  else
    receiver_id <- get_prop packet "receiver_id" ;;
    agent <- gets (fun st =>
                     Obj.get (to_string receiver_id) (agent_id_to_agent st)) ;;
    push_unsent agent packet.

(** The key under which a [provider_details] or [initial_data_send] packet
    looks for its parked HTTP response: [data.request_id], or
    [receiver_id] when that is [undefined]. *)
Definition correlation_key (packet : value) : M value :=
  data <- get_prop packet "data" ;;
  request_id <- get_prop data "request_id" ;;
  if is_undefined request_id then get_prop packet "receiver_id"
  else ret request_id.

(** The branch of the message handler that resolves a parked response. *)
Definition resolve_provider_request (packet : value) : M unit :=
  request_id <- correlation_key packet ;;
  res_obj <- gets (fun st =>
                     Obj.get (to_string request_id)
                       (pending_provider_requests st)) ;;
  match res_obj with
  | None => throw (TypeError "Cannot read property 'json' of undefined")
  | Some res => emit (res_json res packet)
  end ;;
  modify (fun st =>
            set_pending_provider_requests
              (Obj.delete (to_string request_id)
                 (pending_provider_requests st)) st).

(** The body of the [try] block of the message handler. *)
Definition route (env : SocketEnv) (socket : Socket) (raw : message)
  : M unit :=
  packet <- JSON_parse raw ;;
  emit (console_log (LogValue packet)) ;;
  packet_type <- get_prop packet "packet_type" ;;
  if loose_eq packet_type PACKET_TYPE_REQUEST_AGENT_STATUS then
    handle_get_agent_status packet
  else if loose_eq packet_type PACKET_TYPE_AGENT_ACTION then
    handle_forward packet
  else if loose_eq packet_type PACKET_TYPE_ALIVE then
    handle_alive env socket packet
  else if loose_eq packet_type PACKET_TYPE_PROVIDER_DETAILS
          || loose_eq packet_type PACKET_TYPE_INIT_DATA then
    resolve_provider_request packet
  else ret tt.

(** [socket.on('message', ...)]: whatever the body throws is caught and
    logged. *)
Definition on_message (env : SocketEnv) (socket : Socket) (raw : message)
  : M unit :=
  try_catch (route env socket raw)
    (fun error =>
       emit (console_log (LogText "Transient error on message")) ;;
       emit (console_log (LogError error))).

Definition on_connection (socket : Socket) : M unit :=
  emit (console_log (LogText "Client connected")).

Definition on_disconnect (env : SocketEnv) (socket : Socket) : M unit :=
  emit (console_log (LogText "disconnected")) ;;
  agent <- gets (fun st =>
                   Obj.get (to_string (id (env socket)))
                     (socket_id_to_agent st)) ;;
  ret tt.

Definition on_error (socket : Socket) (err : exn) : M unit :=
  emit (console_log (LogText "Caught socket error")) ;;
  emit (console_log (LogError err)).

(** ** The dispatch loop *)

(** [while (queue.length > 0) messages.push(queue.shift())], as a function
    of the two arrays: it returns what is left of the queue and the
    collected messages. *)
Fixpoint drain_queue (queue messages : list value)
  : list value * list value :=
  match queue with
  | [] => (queue, messages)
  | packet :: rest => drain_queue rest (messages ++ [packet])
  end.

(** One pass of the agent loop of [main_thread]. *)
Definition flush_agent (env : SocketEnv) (agent_id : string) : M unit :=
  agent_state <- gets (fun st => Obj.get agent_id (agent_id_to_agent st)) ;;
  sendable_messages <- get_sendable_messages agent_state ;;
  if Nat.ltb 0 (length sendable_messages) then
    socket <- gets (fun st => Obj.get agent_id (agent_id_to_socket st)) ;;
    for_each sendable_messages (fun packet => _send_message env socket packet)
  else ret tt.

(** The first block of [main_thread]: every agent with a socket. *)
Definition flush_agents (env : SocketEnv) : M unit :=
  sockets <- gets agent_id_to_socket ;;
  for_each (Obj.keys sockets) (flush_agent env).

(** The second block: the batch for the mephisto python client. *)
Definition flush_system (env : SocketEnv) : M unit :=
  queue <- gets mephisto_message_queue ;;
  let '(queue', mephisto_messages) := drain_queue queue [] in
  modify (set_mephisto_message_queue queue') ;;
  if Nat.ltb 0 (length mephisto_messages) then
    for_each mephisto_messages
      (fun packet =>
         socket <- gets mephisto_socket ;;
         _send_message env socket packet)
  else ret tt.

(** [main_thread()]: both blocks, then the timer is set again. *)
Definition main_thread (env : SocketEnv) : M unit :=
  flush_agents env ;;
  flush_system env ;;
  emit (setTimeout fn_main_thread 50) ;;
  modify (set_main_thread_timeout (Some (mkTimeout fn_main_thread 50))).

Definition run_timer (env : SocketEnv) (fn : timer_fn) : M unit :=
  match fn with
  | fn_main_thread => main_thread env
  | fn_retry socket packet => run_retry socket packet
  end.

(** ** The HTTP routes *)

(** The packet [make_provider_request] builds around a request id. *)
Definition request_packet_of (request_id request_type : string)
  (provider_data : value) : value :=
  VObj [("packet_type", VStr request_type);
        ("sender_id", VStr SERVER_SOCKET_ID);
        ("receiver_id", VStr SYSTEM_SOCKET_ID);
        ("data", VObj [("provider_data", provider_data);
                       ("request_id", VStr request_id)])].

(** [make_provider_request(request_type, provider_data, res)]. *)
Definition make_provider_request (env : SocketEnv) (rand : nat -> N)
  (request_type : string) (provider_data : value) (res : Response)
  : M unit :=
  let request_id := uuidv4 rand in
  let request_packet :=
    request_packet_of request_id request_type provider_data in
  modify (fun st =>
            set_pending_provider_requests
              (Obj.set request_id res (pending_provider_requests st)) st) ;;
  socket <- gets mephisto_socket ;;
  _send_message env socket request_packet.

(** The four routes that ask the system connection for something. *)
Inductive provider_route : Type :=
  | initial_task_data
  | register_worker
  | request_agent
  | submit_onboarding.

Definition route_request_type (r : provider_route) : string :=
  match r with
  | initial_task_data => PACKET_TYPE_GET_INIT_DATA
  | register_worker => PACKET_TYPE_NEW_WORKER
  | request_agent => PACKET_TYPE_NEW_AGENT
  | submit_onboarding => PACKET_TYPE_SUBMIT_ONBOARDING
  end.

(** [app.post('/initial_task_data', ...)] and its three siblings; [body] is
    [req.body]. *)
Definition post_provider_route (env : SocketEnv) (rand : nat -> N)
  (r : provider_route) (body : value) (res : Response) : M unit :=
  provider_data <- get_prop body "provider_data" ;;
  make_provider_request env rand (route_request_type r) provider_data res.

(** [app.post('/submit_task', ...)]; [files] is [req.files]. *)
Definition post_submit_task (env : SocketEnv) (body files : value)
  (res : Response) : M unit :=
  let provider_data := body in
  agent_id <- get_prop provider_data "USED_AGENT_ID" ;;
  let provider_data := delete_prop provider_data "USED_AGENT_ID" in
  let submit_packet :=
    VObj [("packet_type", VStr PACKET_TYPE_AGENT_ACTION);
          ("sender_id", agent_id);
          ("receiver_id", VStr SYSTEM_SOCKET_ID);
          ("data", VObj [("task_data", provider_data);
                         ("is_submit", VBool true);
                         ("files", files)])] in
  socket <- gets mephisto_socket ;;
  _send_message env socket submit_packet ;;
  emit (res_json res (VObj [("status", VStr "Submitted!")])).

(** [app.get('/is_alive', ...)]. *)
Definition get_is_alive (res : Response) : M unit :=
  emit (res_json res (VObj [("status", VStr "Alive!")])).

(** ** The event loop *)

(** What the runtime can ask the server to do.  Each event carries what
    the environment decides at that moment. *)
Inductive event : Type :=
  | ev_connection (socket : Socket)
  | ev_message (socket : Socket) (raw : message)
  | ev_disconnect (socket : Socket)
  | ev_socket_error (socket : Socket) (err : exn)
  | ev_timer (fn : timer_fn)
  | ev_sent (cb : callback) (error : option exn)
  | ev_post_provider (rand : nat -> N) (r : provider_route) (body : value)
      (res : Response)
  | ev_post_submit_task (body files : value) (res : Response)
  | ev_get_is_alive (res : Response).

(** A route handler that throws is answered by the framework with an error
    response. *)
Definition express (res : Response) (handler : M unit) : M unit :=
  try_catch handler (fun e => emit (res_error res e)).

Definition handle (env : SocketEnv) (ev : event) : M unit :=
  match ev with
  | ev_connection socket => on_connection socket
  | ev_message socket raw => on_message env socket raw
  | ev_disconnect socket => on_disconnect env socket
  | ev_socket_error socket err => on_error socket err
  | ev_timer fn => run_timer env fn
  | ev_sent cb error => run_callback cb error
  | ev_post_provider rand r body res =>
      express res (post_provider_route env rand r body res)
  | ev_post_submit_task body files res =>
      express res (post_submit_task env body files res)
  | ev_get_is_alive res => express res (get_is_alive res)
  end.

(** Events are handled one after the other; an exception that leaves a
    handler ends the process. *)
Fixpoint run (evs : list (SocketEnv * event)) (st : ServerState)
  : ServerState * list effect :=
  match evs with
  | [] => (st, [])
  | (env, ev) :: rest =>
      match handle env ev st with
      | (Ok _, st1, t1) =>
          let '(st2, t2) := run rest st1 in (st2, t1 ++ t2)
      | (Throw _, st1, t1) => (st1, t1)
      end
  end.

(** ** Observations on traces and states *)

(** The packets handed to [socket.send] on one socket, in order. *)
Fixpoint sends_to (s : Socket) (t : list effect) : list value :=
  match t with
  | [] => []
  | socket_send s' packet _ :: rest =>
      if Nat.eqb s' s then packet :: sends_to s rest else sends_to s rest
  | _ :: rest => sends_to s rest
  end.

(** Every [socket.send] of a trace, with its socket. *)
Fixpoint all_sends (t : list effect) : list (Socket * value) :=
  match t with
  | [] => []
  | socket_send s packet _ :: rest => (s, packet) :: all_sends rest
  | _ :: rest => all_sends rest
  end.

(** Every HTTP response body written in a trace. *)
Fixpoint all_responses (t : list effect) : list (Response * value) :=
  match t with
  | [] => []
  | res_json res body :: rest => (res, body) :: all_responses rest
  | _ :: rest => all_responses rest
  end.

(** How often [main_thread] is handed to [setTimeout]: each such call
    schedules one run of the dispatch loop. *)
Fixpoint main_timers (t : list effect) : nat :=
  match t with
  | [] => 0
  | setTimeout fn_main_thread _ :: rest => S (main_timers rest)
  | _ :: rest => main_timers rest
  end.

(** The events in which the runtime fires that timer: the runs of
    [main_thread]. *)
Definition is_tick (ev : event) : bool :=
  match ev with
  | ev_timer fn_main_thread => true
  | _ => false
  end.

Definition ticks (evs : list (SocketEnv * event)) : nat :=
  length (filter (fun x => is_tick (snd x)) evs).

(** What [_send_message] emits, as a function of what it is given. *)
Definition send_trace (env : SocketEnv) (socket : option Socket)
  (packet : value) : list effect :=
  match socket with
  | None => []
  | Some s =>
      if Nat.eqb (readyState (env s)) 3 then []
      else [console_log (LogValue packet); socket_send s packet (ack s packet)]
  end.

(** [packet['packet_type'] == c], for a packet that can be asked. *)
Definition packet_type_is (packet : value) (c : string) : bool :=
  match packet with
  | VObj props =>
      match Obj.get "packet_type" props with
      | Some t => loose_eq t c
      | None => false
      end
  | _ => false
  end.

(** A packet that takes the resolving branch of the router. *)
Definition is_reply (packet : value) : bool :=
  negb (packet_type_is packet PACKET_TYPE_REQUEST_AGENT_STATUS)
  && negb (packet_type_is packet PACKET_TYPE_AGENT_ACTION)
  && negb (packet_type_is packet PACKET_TYPE_ALIVE)
  && (packet_type_is packet PACKET_TYPE_PROVIDER_DETAILS
      || packet_type_is packet PACKET_TYPE_INIT_DATA).

(** An [alive] packet of the system connection. *)
Definition is_system_alive (packet : value) : bool :=
  negb (packet_type_is packet PACKET_TYPE_REQUEST_AGENT_STATUS)
  && negb (packet_type_is packet PACKET_TYPE_AGENT_ACTION)
  && packet_type_is packet PACKET_TYPE_ALIVE
  && match packet with
     | VObj props =>
         match Obj.get "sender_id" props with
         | Some sender_id => loose_eq sender_id SYSTEM_SOCKET_ID
         | None => false
         end
     | _ => false
     end.

(** An inbound frame that registers the system connection. *)
Definition is_registration (ev : event) : bool :=
  match ev with
  | ev_message _ (Wellformed packet) => is_system_alive packet
  | _ => false
  end.

(** The registry is in order when every agent that has a socket has a
    record of its own. *)
Fixpoint refs_of (known : Obj.t AgentRef) (ks : list string)
  : option (list AgentRef) :=
  match ks with
  | [] => Some []
  | k :: rest =>
      match Obj.get k known, refs_of known rest with
      | Some r, Some rs => Some (r :: rs)
      | _, _ => None
      end
  end.

Fixpoint distinct (l : list nat) : bool :=
  match l with
  | [] => true
  | x :: rest => negb (existsb (Nat.eqb x) rest) && distinct rest
  end.

Definition registry_ok (st : ServerState) : bool :=
  match refs_of (agent_id_to_agent st) (Obj.keys (agent_id_to_socket st)) with
  | Some rs => distinct rs
  | None => false
  end.

(** No other agent, and not the system connection, uses socket [s]. *)
Definition socket_unshared (st : ServerState) (a : string) (s : Socket)
  : bool :=
  forallb
    (fun k =>
       String.eqb k a
       || match Obj.get k (agent_id_to_socket st) with
          | Some s' => negb (Nat.eqb s' s)
          | None => true
          end)
    (Obj.keys (agent_id_to_socket st))
  && match mephisto_socket st with
     | Some s' => negb (Nat.eqb s' s)
     | None => true
     end.

(** A record with its queue taken. *)
Definition emptied (a : LocalAgentState) : LocalAgentState :=
  {| status := status a; agent_id := agent_id a; unsent_messages := [] |}.

Fixpoint clear_all (rs : list AgentRef) (h : AgentRef -> LocalAgentState)
  : AgentRef -> LocalAgentState :=
  match rs with
  | [] => h
  | r :: rest => clear_all rest (heap_write r (emptied (h r)) h)
  end.

(** What one pass of the agent loop sends for agent [k]. *)
Definition batch_of (env : SocketEnv) (st : ServerState) (k : string)
  : list effect :=
  match Obj.get k (agent_id_to_agent st) with
  | Some r =>
      flat_map (send_trace env (Obj.get k (agent_id_to_socket st)))
        (unsent_messages (heap st r))
  | None => []
  end.

(** ** A scripted delivery

    One call of [_send_message] followed to its end: the socket library
    answers the first [socket.send] with [first] and, if the timer was set
    and ran, the second with [second] ([None]: the frame went out).  The
    run returns the final state, the trace and the frames that went out. *)
Definition first_send (t : list effect) : option (Socket * value * callback) :=
  match filter (fun e => match e with socket_send _ _ _ => true | _ => false end) t with
  | socket_send s p cb :: _ => Some (s, p, cb)
  | _ => None
  end.

Definition first_timer (t : list effect) : option timer_fn :=
  match filter (fun e => match e with setTimeout _ _ => true | _ => false end) t with
  | setTimeout fn _ :: _ => Some fn
  | _ => None
  end.

Definition went_out (s : Socket) (p : value) (answer : option exn)
  : list (Socket * value) :=
  match answer with
  | None => [(s, p)]
  | Some _ => []
  end.

Definition send_reliable_run (env : SocketEnv) (socket : option Socket)
  (packet : value) (first second : option exn) (st : ServerState)
  : ServerState * list effect * list (Socket * value) :=
  let '(_, st0, t0) := _send_message env socket packet st in
  match first_send t0 with
  | None => (st0, t0, [])
  | Some (s1, p1, cb1) =>
      let '(_, st1, t1) := run_callback cb1 first st0 in
      match first_timer t1 with
      | None => (st1, t0 ++ t1, went_out s1 p1 first)
      | Some fn =>
          let '(_, st2, t2) := run_timer env fn st1 in
          match first_send t2 with
          | None => (st2, t0 ++ t1 ++ t2, went_out s1 p1 first)
          | Some (s2, p2, cb2) =>
              let '(_, st3, t3) := run_callback cb2 second st2 in
              (st3, t0 ++ t1 ++ t2 ++ t3,
               went_out s1 p1 first ++ went_out s2 p2 second)
          end
      end
  end.

(** The property name a reply is looked up under, when the packet has
    one: reading the key touches neither the state nor the trace. *)
Definition reply_key (packet : value) : option string :=
  match result_of (correlation_key packet initial_state) with
  | Ok key => Some (to_string key)
  | Throw _ => None
  end.

(** What [handle_alive] returns when the sender is the system identity. *)
Definition system_registered (socket : Socket) (st : ServerState)
  : result unit * ServerState * list effect :=
  match main_thread_timeout st with
  | None =>
      (Ok tt,
       set_main_thread_timeout (Some (mkTimeout fn_main_thread 50))
         (set_mephisto_socket (Some socket) st),
       [console_log (LogText "launching main thread");
        setTimeout fn_main_thread 50])
  | Some _ => (Ok tt, set_mephisto_socket (Some socket) st, [])
  end.

(** A list of inbound packets as events of the loop. *)
Definition as_messages (l : list (SocketEnv * Socket * value))
  : list (SocketEnv * event) :=
  map (fun x => (fst (fst x), ev_message (snd (fst x)) (Wellformed (snd x))))
    l.

(** ** States and packets used as examples *)

Module Examples.

Definition packet (packet_type sender_id receiver_id : string)
  (data : value) : value :=
  VObj [("packet_type", VStr packet_type);
        ("sender_id", VStr sender_id);
        ("receiver_id", VStr receiver_id);
        ("data", data)].

(** Every socket is open. *)
Definition env_open : SocketEnv := fun _ => mkSocketObj VUndefined 1.

(** Socket 2 has closed, the others are open. *)
Definition env_closed2 : SocketEnv :=
  fun s => mkSocketObj VUndefined (if Nat.eqb s 2 then 3 else 1).

Definition rand0 : nat -> N := fun _ => 5%N.

(** The system connection is socket 1 and the loop is running. *)
Definition st_system : ServerState :=
  set_main_thread_timeout (Some (mkTimeout fn_main_thread 50))
    (set_mephisto_socket (Some 1) initial_state).

(** As [st_system], with agent [agent_1] on socket 2 holding record 0,
    which has one packet waiting. *)
Definition waiting : value :=
  packet PACKET_TYPE_AGENT_ACTION SYSTEM_SOCKET_ID "agent_1"
    (VObj [("text", VStr "hello")]).

Definition st_agent : ServerState :=
  set_heap
    (heap_write 0
       {| status := STATUS_INIT; agent_id := VStr "agent_1";
          unsent_messages := [waiting] |}
       (heap initial_state))
    (set_agent_id_to_agent [("agent_1", 0)]
       (set_socket_id_to_agent [("undefined", 0)]
          (set_agent_id_to_socket [("agent_1", 2)] st_system))).

(** As [st_system], with one HTTP response (number 9) parked. *)
Definition st_pending : ServerState :=
  set_pending_provider_requests [(uuidv4 rand0, 9)] st_system.

Definition action_to_system : value :=
  packet PACKET_TYPE_AGENT_ACTION "agent_1" SYSTEM_SOCKET_ID
    (VObj [("text", VStr "done")]).

Definition action_to_agent : value :=
  packet PACKET_TYPE_AGENT_ACTION SYSTEM_SOCKET_ID "agent_1"
    (VObj [("text", VStr "go")]).

Definition alive_agent : value :=
  packet PACKET_TYPE_ALIVE "agent_1" SYSTEM_SOCKET_ID (VObj []).

Definition alive_system : value :=
  packet PACKET_TYPE_ALIVE SYSTEM_SOCKET_ID SERVER_SOCKET_ID (VObj []).

Definition reply (request_id : string) : value :=
  packet PACKET_TYPE_PROVIDER_DETAILS SYSTEM_SOCKET_ID SERVER_SOCKET_ID
    (VObj [("request_id", VStr request_id); ("ok", VBool true)]).

Definition request_status : value :=
  packet PACKET_TYPE_REQUEST_AGENT_STATUS SYSTEM_SOCKET_ID SERVER_SOCKET_ID
    (VObj []).

Definition body0 : value :=
  VObj [("provider_data", VObj [("a", VNum "1")])].

End Examples.

(** ** Relations between a state, what a handler emits and the state it
    leaves *)

(** A handler respects [R] when every run of it, from any state, is in
    [R]; an exception counts like a normal return. *)
Definition respects {A} (R : ServerState -> list effect -> ServerState -> Prop)
  (m : M A) : Prop :=
  forall st, R st (trace_of (m st)) (state_of (m st)).

(** Relations that hold of doing nothing and of doing one thing after
    another. *)
Class Compositional (R : ServerState -> list effect -> ServerState -> Prop)
  : Prop := {
  comp_refl : forall st, R st [] st;
  comp_trans : forall st t1 st1 t2 st2,
    R st t1 st1 -> R st1 t2 st2 -> R st (t1 ++ t2) st2
}.

(** 1 once the timer variable is set. *)
Definition armed (st : ServerState) : nat :=
  match main_thread_timeout st with
  | None => 0
  | Some _ => 1
  end.

(** Every [setTimeout(main_thread, 50)] is paid for by the timer variable
    going from [null] to set. *)
Definition timer_paid (st : ServerState) (t : list effect)
  (st' : ServerState) : Prop :=
  main_timers t + armed st <= armed st'.

(** The system socket is the one it was. *)
Definition system_socket_kept (st : ServerState) (t : list effect)
  (st' : ServerState) : Prop :=
  mephisto_socket st' = mephisto_socket st.

(** Whether a trace writes to response [res], a body or an error. *)
Definition answers_response (res : Response) (e : effect) : bool :=
  match e with
  | res_json r _ => Nat.eqb r res
  | res_error r _ => Nat.eqb r res
  | _ => false
  end.

Definition answered (res : Response) (t : list effect) : bool :=
  existsb (answers_response res) t.

(** Response [res] is parked under [rid] at most. *)
Definition parked_only_under (rid : string) (res : Response)
  (st : ServerState) : Prop :=
  forall k, Obj.get k (pending_provider_requests st) = Some res -> k = rid.

Definition unanswered (rid : string) (res : Response) (st : ServerState)
  (t : list effect) (st' : ServerState) : Prop :=
  parked_only_under rid res st ->
  parked_only_under rid res st' /\ answered res t = false.

(** Events that neither carry a reply for [rid] nor belong to an HTTP
    exchange that owns [res]. *)
Definition leaves_alone (rid : string) (res : Response) (ev : event) : bool :=
  match ev with
  | ev_message _ (Wellformed packet) =>
      match reply_key packet with
      | Some k => negb (String.eqb k rid)
      | None => true
      end
  | ev_post_provider _ _ _ res' => negb (Nat.eqb res' res)
  | ev_post_submit_task _ _ res' => negb (Nat.eqb res' res)
  | ev_get_is_alive res' => negb (Nat.eqb res' res)
  | _ => true
  end.

(** The agent maps and the agent records are what they were. *)
Definition agents_kept (st : ServerState) (t : list effect)
  (st' : ServerState) : Prop :=
  agent_id_to_socket st' = agent_id_to_socket st
  /\ socket_id_to_agent st' = socket_id_to_agent st
  /\ agent_id_to_agent st' = agent_id_to_agent st.

(** ** Further observations *)

(** A lower-case hexadecimal digit; one of the four digits the template's
    [y] can become. *)
Definition is_hex (c : ascii) : bool :=
  existsb (Ascii.eqb c) (list_ascii_of_string "0123456789abcdef").

Definition is_variant (c : ascii) : bool :=
  existsb (Ascii.eqb c) (list_ascii_of_string "89ab").

(** [s] has the shape of [template]: a hexadecimal digit for each [x],
    one of 8, 9, a, b for each [y], the same character elsewhere, and the
    same length. *)
Fixpoint matches_template (template s : string) : bool :=
  match template, s with
  | EmptyString, EmptyString => true
  | String t template', String c s' =>
      (if Ascii.eqb t "x"%char then is_hex c
       else if Ascii.eqb t "y"%char then is_variant c
       else Ascii.eqb c t)
      && matches_template template' s'
  | _, _ => false
  end.

(** The packet would take one of the four branches of the router. *)
Definition known_type (packet : value) : bool :=
  packet_type_is packet PACKET_TYPE_REQUEST_AGENT_STATUS
  || packet_type_is packet PACKET_TYPE_AGENT_ACTION
  || packet_type_is packet PACKET_TYPE_ALIVE
  || packet_type_is packet PACKET_TYPE_PROVIDER_DETAILS
  || packet_type_is packet PACKET_TYPE_INIT_DATA.

(** [_send_message] would return at one of its two guards. *)
Definition undeliverable (env : SocketEnv) (socket : option Socket) : bool :=
  match socket with
  | None => true
  | Some s => Nat.eqb (readyState (env s)) 3
  end.

(** A trace of console lines and socket sends only. *)
Definition only_logs_and_sends (t : list effect) : bool :=
  forallb
    (fun e =>
       match e with
       | console_log _ | socket_send _ _ _ => true
       | _ => false
       end) t.

(** Nothing is sent on a socket. *)
Definition no_sends (st : ServerState) (t : list effect) (st' : ServerState)
  : Prop :=
  all_sends t = [].

(** Every agent record has the status and the agent id it had. *)
Definition records_kept (st : ServerState) (t : list effect)
  (st' : ServerState) : Prop :=
  forall r,
    status (heap st' r) = status (heap st r)
    /\ agent_id (heap st' r) = agent_id (heap st r).

(** A response parked under [rid] is still parked there. *)
Definition entry_kept (rid : string) (res : Response) (st : ServerState)
  (t : list effect) (st' : ServerState) : Prop :=
  Obj.get rid (pending_provider_requests st) = Some res ->
  Obj.get rid (pending_provider_requests st') = Some res.

(** Events that are neither a reply for [rid] nor a provider request that
    draws [rid] again. *)
Definition keeps_entry (rid : string) (ev : event) : bool :=
  match ev with
  | ev_message _ (Wellformed packet) =>
      match reply_key packet with
      | Some k => negb (String.eqb k rid)
      | None => true
      end
  | ev_post_provider rand _ _ _ => negb (String.eqb (uuidv4 rand) rid)
  | _ => true
  end.

(** An event of the WebSocket server: a connection, a frame, a disconnect
    or a socket error. *)
Definition is_socket_event (ev : event) : bool :=
  match ev with
  | ev_connection _ | ev_message _ _ | ev_disconnect _ | ev_socket_error _ _ =>
      true
  | _ => false
  end.

(** ** The review hook

    [useMephistoReview] keeps three state cells and returns a view of
    them with a [submit] closure.  Each of its two promise chains is
    followed to its settlement: a promise is a function from the cells to
    its outcome and the cells it leaves, and the outcome of each [fetch]
    is given by the environment. *)
Module Hook.

(** The objects handed to [setError]: [{type, error}]. *)
Inductive hook_error : Type :=
  | HookError (type : string) (error : exn).

(** The three cells of [useState]. *)
Record State : Type := mkState {
  data : value;
  counter : nat;
  error : option hook_error
}.

(** [useState(null)], [useState(0)], [useState(null)]. *)
Definition initial : State :=
  {| data := VNull; counter := 0; error := None |}.

Inductive settled (A : Type) : Type :=
  | Fulfilled (a : A)
  | Rejected (reason : exn).
Arguments Fulfilled {A} a.
Arguments Rejected {A} reason.

Definition promise (A : Type) : Type := State -> settled A * State.

Definition resolve {A} (a : A) : promise A := fun st => (Fulfilled a, st).

Definition reject {A} (reason : exn) : promise A :=
  fun st => (Rejected reason, st).

(** [p.then(f)]: [f] runs on fulfilment, a rejection is passed on. *)
Definition then_ {A B} (p : promise A) (f : A -> promise B) : promise B :=
  fun st =>
    match p st with
    | (Fulfilled a, st1) => f a st1
    | (Rejected reason, st1) => (Rejected reason, st1)
    end.

(** [p.catch(h)]: [h] runs on rejection, a value is passed on. *)
Definition catch_ {A} (p : promise A) (h : exn -> promise A) : promise A :=
  fun st =>
    match p st with
    | (Fulfilled a, st1) => (Fulfilled a, st1)
    | (Rejected reason, st1) => h reason st1
    end.

Definition setData (v : value) : promise unit :=
  fun st => (Fulfilled tt, mkState v (counter st) (error st)).

Definition setCounter (n : nat) : promise unit :=
  fun st => (Fulfilled tt, mkState (data st) n (error st)).

Definition setError (e : hook_error) : promise unit :=
  fun st => (Fulfilled tt, mkState (data st) (counter st) (Some e)).

(** What a [.then] or [.catch] of the chains passes on: a response, seen
    as what [JSON.parse] makes of its body, or [undefined]. *)
Definition fetch (outcome : settled message) : promise (option message) :=
  fun st =>
    match outcome with
    | Fulfilled res => (Fulfilled (Some res), st)
    | Rejected reason => (Rejected reason, st)
    end.

(** [res.json()]. *)
Definition json (res : option message) : promise value :=
  match res with
  | None => reject (TypeError "Cannot read property 'json' of undefined")
  | Some Malformed => reject SyntaxError
  | Some (Wellformed v) => resolve v
  end.

(** The function given to [useEffect]. *)
Definition effect (outcome : settled message) : promise unit :=
  catch_
    (then_
       (then_
          (catch_ (fetch outcome)
             (fun err =>
                then_ (setError (HookError "DATA_RETRIEVAL" err))
                  (fun _ => resolve None)))
          (fun res => json res))
       (fun data => setData data))
    (fun err => setError (HookError "DATA_PARSE" err)).

(** [submitData], as built by a render that saw [counter]. *)
Definition submitData (counter : nat) (outcome : settled message)
  : promise unit :=
  then_
    (catch_ (fetch outcome)
       (fun err =>
          then_ (setError (HookError "RESPONSE_SUBMIT" err))
            (fun _ => resolve None)))
    (fun _ => setCounter (counter + 1)).

(** [!v]. *)
Definition falsy (v : value) : bool :=
  match v with
  | VUndefined | VNull => true
  | VBool b => negb b
  | VNum repr => String.eqb repr "0" || String.eqb repr "NaN"
  | VStr EmptyString => true
  | VStr _ => false
  | VArr _ | VObj _ => false
  end.

(** [v && v[k]], for [k] one of [data], [finished]. *)
Definition and_prop (v : value) (k : string) : value :=
  if falsy v then v
  else match v with
       | VObj props =>
           match Obj.get k props with
           | Some x => x
           | None => VUndefined
           end
       | _ => VUndefined
       end.

(** The object the hook returns. *)
Module View.
Record t : Type := mk {
  isLoading : bool;
  data : value;
  isFinished : value;
  submit : settled message -> promise unit;
  error : option hook_error
}.
End View.

Definition useMephistoReview (st : State) : View.t :=
  {| View.isLoading := falsy (data st);
     View.data := and_prop (data st) "data";
     View.isFinished := and_prop (data st) "finished";
     View.submit := submitData (counter st);
     View.error := error st |}.

(** What settles in the life of one mounted hook: a run of the effect, or
    a [submit] closure of the render that saw [counter]. *)
Inductive settlement : Type :=
  | effect_settled (outcome : settled message)
  | submit_settled (counter : nat) (outcome : settled message).

Definition settle (s : settlement) (st : State) : State :=
  match s with
  | effect_settled outcome => snd (effect outcome st)
  | submit_settled counter outcome => snd (submitData counter outcome st)
  end.

Definition settle_all (l : list settlement) (st : State) : State :=
  fold_left (fun st s => settle s st) l st.

End Hook.

(** ** More states and packets used as examples *)

Module MoreExamples.

(** Draws that differ from [Examples.rand0] in the sixteenth only, and
    there only above the two low bits. *)
Definition rand1 : nat -> N := fun i => if Nat.eqb i 15 then 1%N else 5%N.

(** An agent id that has a socket and no record. *)
Definition st_orphan : ServerState :=
  set_agent_id_to_socket [("ghost", 4)] Examples.st_system.

(** One packet waits for a system connection that never registered. *)
Definition st_queued : ServerState :=
  set_mephisto_message_queue [Examples.request_status] initial_state.

(** A reply that names its request in [receiver_id] only. *)
Definition reply_by_receiver : value :=
  Examples.packet PACKET_TYPE_PROVIDER_DETAILS SYSTEM_SOCKET_ID
    (uuidv4 Examples.rand0) (VObj [("ok", VBool true)]).

(** The same without [data]. *)
Definition reply_without_data : list (string * value) :=
  [("packet_type", VStr PACKET_TYPE_PROVIDER_DETAILS);
   ("sender_id", VStr SYSTEM_SOCKET_ID);
   ("receiver_id", VStr (uuidv4 Examples.rand0))].

(** A packet of a type the router has no branch for. *)
Definition returned_status : value :=
  Examples.packet PACKET_TYPE_RETURN_AGENT_STATUS SERVER_SOCKET_ID
    SYSTEM_SOCKET_ID (VObj []).

Definition some_events : list (SocketEnv * event) :=
  [(Examples.env_open, ev_timer fn_main_thread);
   (Examples.env_open, ev_message 3 (Wellformed Examples.alive_system));
   (Examples.env_open, ev_message 3 (Wellformed (Examples.reply "other")));
   (Examples.env_open,
    ev_post_provider (fun _ => 7%N) request_agent
      Examples.body0 11)].

(** The packet [/request_agent] builds from [Examples.body0] under the
    draws [Examples.rand0]. *)
Definition agent_request : value :=
  request_packet_of (uuidv4 Examples.rand0) PACKET_TYPE_NEW_AGENT
    (VObj [("a", VNum "1")]).

(** The system connection registers on socket 1; a provider request is
    sent there and the socket library reports that send as failed; then
    the system connection registers again, on socket 3. *)
Definition reregistered_before_retry : list (SocketEnv * event) :=
  [(Examples.env_open, ev_message 1 (Wellformed Examples.alive_system));
   (Examples.env_open,
    ev_post_provider Examples.rand0 request_agent Examples.body0 9);
   (Examples.env_open,
    ev_sent (ack 1 agent_request) (Some (TransportError "EPIPE")));
   (Examples.env_open, ev_message 3 (Wellformed Examples.alive_system))].

End MoreExamples.

(** * Properties *)

(** ** The definitions on small inputs *)

Example uuidv4_shape :
  uuidv4 (fun i => N.of_nat (Nat.modulo i 16)) =
  "01234567-89ab-4cde-b012-3456789abcde".
Proof. reflexivity. Qed.

Example keys_order :
  Obj.keys [("b", 1); ("10", 2); ("a", 3); ("2", 4); ("01", 5)] =
  ["2"; "10"; "b"; "a"; "01"].
Proof. reflexivity. Qed.

Example array_equals_string :
  loose_eq (VArr [VStr "alive"]) PACKET_TYPE_ALIVE = true
  /\ loose_eq (VNum "0") PACKET_TYPE_ALIVE = false
  /\ to_string (VArr [VStr "a"; VNull; VArr [VNum "1"; VBool true]]) =
     "a,,1,true".
Proof. repeat split. Qed.

Example first_registration :
  on_message Examples.env_open 1 (Wellformed Examples.alive_system)
    initial_state =
  (Ok tt, Examples.st_system,
   [console_log (LogValue Examples.alive_system);
    console_log (LogText "launching main thread");
    setTimeout fn_main_thread 50]).
Proof. reflexivity. Qed.

Example tick_with_one_agent :
  trace_of (main_thread Examples.env_open Examples.st_agent) =
  [console_log (LogValue Examples.waiting);
   socket_send 2 Examples.waiting (ack 2 Examples.waiting);
   setTimeout fn_main_thread 50]
  /\ trace_of (main_thread Examples.env_closed2 Examples.st_agent) =
     [setTimeout fn_main_thread 50].
Proof. split; reflexivity. Qed.

(** ** Objects as maps *)

Module ObjFacts.

Section Lookup.
Variable V : Type.
Implicit Types (o : Obj.t V) (k : string) (v : V).

Lemma get_set_same o k v : Obj.get k (Obj.set k v o) = Some v.
Proof.
  induction o as [|[k' v'] o IH]; simpl.
  - now rewrite String.eqb_refl.
  - destruct (String.eqb k k') eqn:E; simpl.
    + now rewrite String.eqb_refl.
    + now rewrite E.
Qed.

Lemma get_set_other o k k' v :
  k <> k' -> Obj.get k (Obj.set k' v o) = Obj.get k o.
Proof.
  intros Hne. induction o as [|[k0 v0] o IH]; simpl.
  - apply String.eqb_neq in Hne. now rewrite Hne.
  - destruct (String.eqb k' k0) eqn:E; simpl.
    + apply String.eqb_eq in E. subst k0.
      apply String.eqb_neq in Hne. now rewrite Hne.
    + destruct (String.eqb k k0); auto.
Qed.

Lemma get_delete_same o k : Obj.get k (Obj.delete k o) = None.
Proof.
  induction o as [|[k' v'] o IH]; simpl; auto.
  destruct (String.eqb k k') eqn:E; simpl; auto.
  now rewrite E.
Qed.

Lemma get_delete_other o k k' :
  k <> k' -> Obj.get k (Obj.delete k' o) = Obj.get k o.
Proof.
  intros Hne. induction o as [|[k0 v0] o IH]; simpl; auto.
  destruct (String.eqb k' k0) eqn:E; simpl.
  - apply String.eqb_eq in E. subst k0.
    apply String.eqb_neq in Hne. now rewrite Hne.
  - destruct (String.eqb k k0); auto.
Qed.

Lemma get_some_in o k v : Obj.get k o = Some v -> In k (map fst o).
Proof.
  induction o as [|[k' v'] o IH]; simpl; [discriminate|].
  destruct (String.eqb k k') eqn:E.
  - apply String.eqb_eq in E. auto.
  - auto.
Qed.

Lemma in_get_some o k : In k (map fst o) -> exists v, Obj.get k o = Some v.
Proof.
  induction o as [|[k' v'] o IH]; simpl; [tauto|].
  intros [->|Hin].
  - rewrite String.eqb_refl. eauto.
  - destruct (String.eqb k k'); eauto.
Qed.

Lemma in_set o k k' v :
  In k (map fst (Obj.set k' v o)) <-> k = k' \/ In k (map fst o).
Proof.
  induction o as [|[k0 v0] o IH]; simpl.
  - intuition.
  - destruct (String.eqb k' k0) eqn:E; simpl.
    + apply String.eqb_eq in E. subst k0. intuition.
    + rewrite IH. intuition.
Qed.
End Lookup.

(** Enumeration visits exactly the names that are there. *)
Lemma in_insert_index x y l :
  In x (Obj.insert_index y l) <-> x = y \/ In x l.
Proof.
  induction l as [|z l IH]; simpl.
  - intuition.
  - destruct (fst y <=? fst z)%N; simpl.
    + intuition.
    + rewrite IH. intuition.
Qed.

Lemma in_snd_insert_index (k : string) y l :
  In k (map snd (Obj.insert_index y l)) <-> k = snd y \/ In k (map snd l).
Proof.
  split.
  - intros Hin. apply in_map_iff in Hin. destruct Hin as [x [Hx Hin]].
    apply in_insert_index in Hin.
    destruct Hin as [->|Hin]; [now left|].
    right. apply in_map_iff. exists x. auto.
  - intros [->|Hin]; apply in_map_iff.
    + exists y. split; auto. apply in_insert_index. auto.
    + apply in_map_iff in Hin. destruct Hin as [x [Hx Hin]].
      exists x. split; auto. apply in_insert_index. auto.
Qed.

Lemma in_split_keys k ks :
  In k ks <->
  In k (map snd (fst (Obj.split_keys ks))) \/ In k (snd (Obj.split_keys ks)).
Proof.
  induction ks as [|k0 ks IH]; simpl.
  - tauto.
  - destruct (Obj.split_keys ks) as [idx names] eqn:E. simpl in IH.
    destruct (Obj.array_index k0) as [n|]; simpl.
    + rewrite in_snd_insert_index. simpl. intuition.
    + intuition.
Qed.

Lemma in_keys V (o : Obj.t V) k : In k (Obj.keys o) <-> In k (map fst o).
Proof.
  unfold Obj.keys. rewrite (in_split_keys k (map fst o)).
  destruct (Obj.split_keys (map fst o)) as [idx names]. simpl.
  rewrite in_app_iff. tauto.
Qed.

Lemma get_some_in_keys V (o : Obj.t V) k v :
  Obj.get k o = Some v -> In k (Obj.keys o).
Proof. intros H. apply in_keys. eapply get_some_in; eauto. Qed.

Lemma in_keys_get_some V (o : Obj.t V) k :
  In k (Obj.keys o) -> exists v, Obj.get k o = Some v.
Proof. intros H. apply in_get_some. now apply in_keys. Qed.

End ObjFacts.

(** ** Running the monad *)

Ltac run_m :=
  unfold bind, gets, modify, emit, ret, throw, try_catch; simpl.

Lemma bind_ok {A B} (m : M A) (k : A -> M B) st a st1 t1 :
  m st = (Ok a, st1, t1) ->
  bind m k st =
  (result_of (k a st1), state_of (k a st1), t1 ++ trace_of (k a st1)).
Proof.
  intros H. unfold bind. rewrite H.
  destruct (k a st1) as [[r st2] t2]. reflexivity.
Qed.

Lemma let_eta {A} (o : result A * ServerState * list effect) :
  (let '(r, st, t) := o in (r, st, t)) = o.
Proof. now destruct o as [[r st] t]. Qed.

(** ** Compositional reasoning about handlers *)

Section Respects.
Context (R : ServerState -> list effect -> ServerState -> Prop).
Context `{HR : Compositional R}.

Lemma respects_ret {A} (a : A) : respects R (ret a).
Proof. intros st. apply comp_refl. Qed.

Lemma respects_throw {A} e : respects R (@throw A e).
Proof. intros st. apply comp_refl. Qed.

Lemma respects_gets {A} (f : ServerState -> A) : respects R (gets f).
Proof. intros st. apply comp_refl. Qed.

Lemma respects_emit e : (forall st, R st [e] st) -> respects R (emit e).
Proof. intros H st. apply H. Qed.

Lemma respects_modify f : (forall st, R st [] (f st)) -> respects R (modify f).
Proof. intros H st. apply H. Qed.

Lemma respects_bind_ret {A B} (a : A) (k : A -> M B) :
  respects R (k a) -> respects R (bind (ret a) k).
Proof.
  intros Hk st. specialize (Hk st). unfold bind, ret.
  destruct (k a st) as [[r st2] t2]. exact Hk.
Qed.

Lemma respects_bind {A B} (m : M A) (k : A -> M B) :
  respects R m -> (forall a, respects R (k a)) -> respects R (bind m k).
Proof.
  intros Hm Hk st. specialize (Hm st). unfold bind.
  destruct (m st) as [[[a|e] st1] t1]; simpl in *.
  - specialize (Hk a st1). destruct (k a st1) as [[r st2] t2]. simpl in *.
    eapply comp_trans; eauto.
  - exact Hm.
Qed.

Lemma respects_try_catch {A} (m : M A) (handler : exn -> M A) :
  respects R m -> (forall e, respects R (handler e)) ->
  respects R (try_catch m handler).
Proof.
  intros Hm Hh st. specialize (Hm st). unfold try_catch.
  destruct (m st) as [[[a|e] st1] t1]; simpl in *.
  - exact Hm.
  - specialize (Hh e st1). destruct (handler e st1) as [[r st2] t2].
    simpl in *. eapply comp_trans; eauto.
Qed.

Lemma respects_for_each {A} (l : list A) (body : A -> M unit) :
  (forall x, respects R (body x)) -> respects R (for_each l body).
Proof.
  intros Hbody. induction l as [|x l IH]; simpl.
  - apply respects_ret.
  - apply respects_bind; auto.
Qed.

Lemma respects_fold_m {A B} (l : list A) (body : B -> A -> M B) :
  (forall acc x, respects R (body acc x)) ->
  forall acc, respects R (fold_m l body acc).
Proof.
  intros Hbody. induction l as [|x l IH]; intros acc; simpl.
  - apply respects_ret.
  - apply respects_bind; auto.
Qed.

(** A run of the event loop is in [R] when each of its handlers is. *)
Lemma respects_run (P : event -> bool) :
  (forall env ev, P ev = true -> respects R (handle env ev)) ->
  forall evs st,
    forallb (fun x => P (snd x)) evs = true ->
    R st (snd (run evs st)) (fst (run evs st)).
Proof.
  intros Hhandle evs. induction evs as [|[env ev] evs IH]; intros st Hall.
  - apply comp_refl.
  - simpl in Hall. apply andb_prop in Hall. destruct Hall as [Hev Hall].
    simpl. pose proof (Hhandle env ev Hev st) as H1.
    destruct (handle env ev st) as [[[u|e] st1] t1]; simpl in *.
    + specialize (IH st1 Hall). destruct (run evs st1) as [st2 t2].
      simpl in *. eapply comp_trans; eauto.
    + exact H1.
Qed.

End Respects.

(** One step of a proof that a handler respects a relation: [custom]
    gets the first try, then the shape of the handler decides. *)
Ltac respects_step custom :=
  first
    [ custom
    | apply respects_bind_ret
    | apply respects_ret; exact _
    | apply respects_throw; exact _
    | apply respects_gets; exact _
    | apply respects_emit; intros ?
    | apply respects_modify; intros ?
    | apply respects_for_each; try exact _; intros ?
    | apply respects_fold_m; try exact _; intros ? ?
    | apply respects_try_catch; try exact _; [|intros ?]
    | apply respects_bind; try exact _; [|intros ?]
    | match goal with
      | |- respects _ (match ?x with _ => _ end) => destruct x
      end
    | progress unfold JSON_parse, get_prop, read_status, undeclared,
        get_sendable_messages, push_unsent, _send_message, run_ack,
        run_retry, run_ack2, LocalAgentState_call ].

Ltac respects_with custom := repeat (respects_step custom).

(** ** The send primitive *)

Lemma _send_message_run env socket packet st :
  _send_message env socket packet st = (Ok tt, st, send_trace env socket packet).
Proof.
  unfold _send_message, send_trace.
  destruct socket as [s|]; [|reflexivity].
  destruct (Nat.eqb (readyState (env s)) 3); reflexivity.
Qed.

Lemma for_each_send env socket q st :
  for_each q (fun packet => _send_message env socket packet) st =
  (Ok tt, st, flat_map (send_trace env socket) q).
Proof.
  induction q as [|p q IH]; simpl; [reflexivity|].
  erewrite bind_ok by apply _send_message_run.
  rewrite IH. reflexivity.
Qed.

Lemma for_each_send_system env q st :
  for_each q
    (fun packet => socket <- gets mephisto_socket ;;
                   _send_message env socket packet) st =
  (Ok tt, st, flat_map (send_trace env (mephisto_socket st)) q).
Proof.
  induction q as [|p q IH]; simpl; [reflexivity|].
  unfold bind at 1. unfold bind at 1. unfold gets at 1.
  rewrite _send_message_run. rewrite IH. reflexivity.
Qed.

Lemma sends_to_app s t1 t2 :
  sends_to s (t1 ++ t2) = sends_to s t1 ++ sends_to s t2.
Proof.
  induction t1 as [|e t1 IH]; simpl; auto.
  destruct e; auto. destruct (Nat.eqb socket s); simpl; now rewrite IH.
Qed.

Lemma sends_to_batch env s s' q :
  sends_to s (flat_map (send_trace env (Some s')) q) =
  if Nat.eqb s' s && negb (Nat.eqb (readyState (env s')) 3) then q else [].
Proof.
  induction q as [|p q IH]; simpl.
  - now destruct (Nat.eqb s' s && negb (Nat.eqb (readyState (env s')) 3)).
  - rewrite sends_to_app, IH.
    destruct (Nat.eqb (readyState (env s')) 3); simpl.
    + now rewrite andb_false_r.
    + destruct (Nat.eqb s' s); reflexivity.
Qed.

Lemma sends_to_batch_none env s q :
  sends_to s (flat_map (send_trace env None) q) = [].
Proof. induction q; simpl; auto. Qed.

(** ** The dispatch loop *)

Lemma drain_queue_spec queue messages :
  drain_queue queue messages = ([], messages ++ queue).
Proof.
  revert messages. induction queue as [|p queue IH]; intros messages; simpl.
  - now rewrite app_nil_r.
  - rewrite IH. now rewrite <- app_assoc.
Qed.

Lemma flush_system_run env st :
  flush_system env st =
  (Ok tt, set_mephisto_message_queue [] st,
   flat_map (send_trace env (mephisto_socket st)) (mephisto_message_queue st)).
Proof.
  unfold flush_system. unfold bind at 1. unfold gets at 1.
  rewrite drain_queue_spec. simpl app.
  unfold bind at 1. unfold modify at 1.
  destruct (mephisto_message_queue st) as [|p q] eqn:E.
  - reflexivity.
  - change (Nat.ltb 0 (length (p :: q))) with true. cbv iota.
    rewrite for_each_send_system. reflexivity.
Qed.

Lemma flush_agent_run env k r st :
  Obj.get k (agent_id_to_agent st) = Some r ->
  flush_agent env k st =
  (Ok tt, set_heap (heap_write r (emptied (heap st r)) (heap st)) st,
   batch_of env st k).
Proof.
  intros Hr. unfold flush_agent, batch_of.
  unfold bind at 1. unfold gets at 1. rewrite Hr.
  unfold get_sendable_messages. run_m.
  destruct (unsent_messages (heap st r)) as [|p q] eqn:E.
  - reflexivity.
  - change (Nat.ltb 0 (length (p :: q))) with true. cbv beta iota.
    rewrite for_each_send. reflexivity.
Qed.

Lemma distinct_cons r rs :
  distinct (r :: rs) = true -> ~ In r rs /\ distinct rs = true.
Proof.
  simpl. intros H. apply andb_prop in H. destruct H as [H1 H2].
  split; auto. intros Hin.
  apply negb_true_iff in H1.
  assert (existsb (Nat.eqb r) rs = true) as Hex.
  { apply existsb_exists. exists r. split; auto. apply Nat.eqb_refl. }
  congruence.
Qed.

Lemma batch_of_frame env st r x ks : forall rs,
  refs_of (agent_id_to_agent st) ks = Some rs ->
  ~ In r rs ->
  flat_map (batch_of env (set_heap (heap_write r x (heap st)) st)) ks =
  flat_map (batch_of env st) ks.
Proof.
  induction ks as [|k ks IH]; intros rs Hrs Hnin; simpl; [reflexivity|].
  simpl in Hrs.
  destruct (Obj.get k (agent_id_to_agent st)) as [r0|] eqn:Ek; [|discriminate].
  destruct (refs_of (agent_id_to_agent st) ks) as [rs0|] eqn:Eks;
    [|discriminate].
  injection Hrs as <-.
  rewrite (IH rs0 eq_refl) by (intros H; apply Hnin; now right).
  f_equal. unfold batch_of. simpl. rewrite Ek.
  unfold heap_write.
  destruct (Nat.eqb r0 r) eqn:E; [|reflexivity].
  apply Nat.eqb_eq in E. subst r0. exfalso. apply Hnin. now left.
Qed.

Lemma flush_agents_loop env ks : forall rs st,
  refs_of (agent_id_to_agent st) ks = Some rs ->
  distinct rs = true ->
  for_each ks (flush_agent env) st =
  (Ok tt, set_heap (clear_all rs (heap st)) st,
   flat_map (batch_of env st) ks).
Proof.
  induction ks as [|k ks IH]; intros rs st Hrs Hd; simpl in *.
  - injection Hrs as <-. simpl. now destruct st.
  - destruct (Obj.get k (agent_id_to_agent st)) as [r|] eqn:Ek;
      [|discriminate].
    destruct (refs_of (agent_id_to_agent st) ks) as [rs0|] eqn:Eks;
      [|discriminate].
    injection Hrs as <-.
    apply distinct_cons in Hd. destruct Hd as [Hnin Hd].
    erewrite bind_ok by (apply flush_agent_run; eauto).
    rewrite (IH rs0) by assumption.
    unfold result_of, state_of, trace_of. simpl.
    rewrite (batch_of_frame env st r (emptied (heap st r)) ks rs0 Eks Hnin).
    reflexivity.
Qed.

Lemma clear_all_keeps_empty rs : forall h r,
  unsent_messages (h r) = [] -> unsent_messages (clear_all rs h r) = [].
Proof.
  induction rs as [|r0 rs IH]; intros h r H; simpl; auto.
  apply IH. unfold heap_write. destruct (Nat.eqb r r0) eqn:E; auto.
Qed.

Lemma clear_all_in rs : forall h r,
  In r rs -> unsent_messages (clear_all rs h r) = [].
Proof.
  induction rs as [|r0 rs IH]; intros h r Hin; simpl in *; [tauto|].
  destruct (Nat.eq_dec r0 r) as [->|Hne].
  - apply clear_all_keeps_empty. unfold heap_write.
    now rewrite Nat.eqb_refl.
  - apply IH. destruct Hin; [contradiction|assumption].
Qed.

Lemma refs_of_in known ks : forall rs k r,
  refs_of known ks = Some rs -> In k ks -> Obj.get k known = Some r ->
  In r rs.
Proof.
  induction ks as [|k0 ks IH]; intros rs k r Hrs Hin Hk; simpl in *; [tauto|].
  destruct (Obj.get k0 known) as [r0|] eqn:E0; [|discriminate].
  destruct (refs_of known ks) as [rs0|] eqn:Eks; [|discriminate].
  injection Hrs as <-. destruct Hin as [->|Hin].
  - left. congruence.
  - right. eapply IH; eauto.
Qed.

(** What a whole tick does when the registry is in order. *)
Lemma main_thread_run env st rs :
  refs_of (agent_id_to_agent st) (Obj.keys (agent_id_to_socket st)) = Some rs ->
  distinct rs = true ->
  main_thread env st =
  (Ok tt,
   set_main_thread_timeout (Some (mkTimeout fn_main_thread 50))
     (set_mephisto_message_queue []
        (set_heap (clear_all rs (heap st)) st)),
   flat_map (batch_of env st) (Obj.keys (agent_id_to_socket st))
   ++ flat_map (send_trace env (mephisto_socket st))
        (mephisto_message_queue st)
   ++ [setTimeout fn_main_thread 50]).
Proof.
  intros Hrs Hd. unfold main_thread.
  assert (flush_agents env st =
          (Ok tt, set_heap (clear_all rs (heap st)) st,
           flat_map (batch_of env st) (Obj.keys (agent_id_to_socket st))))
    as Hagents.
  { unfold flush_agents. unfold bind at 1. unfold gets at 1.
    rewrite (flush_agents_loop env _ rs st Hrs Hd). reflexivity. }
  erewrite bind_ok by exact Hagents.
  erewrite bind_ok by apply flush_system_run.
  run_m. reflexivity.
Qed.

Lemma registry_ok_refs st :
  registry_ok st = true ->
  exists rs,
    refs_of (agent_id_to_agent st) (Obj.keys (agent_id_to_socket st)) = Some rs
    /\ distinct rs = true.
Proof.
  unfold registry_ok.
  destruct (refs_of (agent_id_to_agent st) (Obj.keys (agent_id_to_socket st)))
    as [rs|]; [eauto|discriminate].
Qed.

Lemma distinct_refs_nodup known ks : forall rs,
  refs_of known ks = Some rs -> distinct rs = true -> NoDup ks.
Proof.
  induction ks as [|k ks IH]; intros rs Hrs Hd; [constructor|].
  simpl in Hrs.
  destruct (Obj.get k known) as [r|] eqn:Ek; [|discriminate].
  destruct (refs_of known ks) as [rs0|] eqn:Eks; [|discriminate].
  injection Hrs as <-. apply distinct_cons in Hd. destruct Hd as [Hnin Hd].
  constructor; [|eapply IH; eauto].
  intros Hin. apply Hnin. eapply refs_of_in; eauto.
Qed.

(** Pushing onto one agent's queue touches that queue only. *)
Lemma push_all_spec r ps : forall st,
  exists st',
    for_each ps (push_unsent (Some r)) st = (Ok tt, st', [])
    /\ agent_id_to_socket st' = agent_id_to_socket st
    /\ agent_id_to_agent st' = agent_id_to_agent st
    /\ mephisto_socket st' = mephisto_socket st
    /\ mephisto_message_queue st' = mephisto_message_queue st
    /\ unsent_messages (heap st' r) = unsent_messages (heap st r) ++ ps
    /\ forall r', r' <> r -> heap st' r' = heap st r'.
Proof.
  induction ps as [|p ps IH]; intros st.
  - exists st. simpl. rewrite app_nil_r. repeat split; auto.
  - simpl.
    set (st1 := set_heap
                  (heap_write r
                     {| status := status (heap st r);
                        agent_id := agent_id (heap st r);
                        unsent_messages := unsent_messages (heap st r) ++ [p] |}
                     (heap st)) st).
    destruct (IH st1) as [st' [Hrun [H1 [H2 [H3 [H4 [H5 H6]]]]]]].
    exists st'.
    assert (push_unsent (Some r) p st = (Ok tt, st1, [])) as Hpush
      by reflexivity.
    erewrite bind_ok by exact Hpush. rewrite Hrun.
    repeat split; auto.
    + rewrite H5. unfold st1. simpl. unfold heap_write.
      rewrite Nat.eqb_refl. simpl. now rewrite <- app_assoc.
    + intros r' Hne. rewrite (H6 r' Hne). unfold st1. simpl.
      unfold heap_write. apply Nat.eqb_neq in Hne. now rewrite Hne.
Qed.

Lemma sends_to_batch_of_other env st k s :
  match Obj.get k (agent_id_to_socket st) with
  | Some s' => negb (Nat.eqb s' s)
  | None => true
  end = true ->
  sends_to s (batch_of env st k) = [].
Proof.
  intros H. unfold batch_of.
  destruct (Obj.get k (agent_id_to_agent st)) as [r|]; [|reflexivity].
  destruct (Obj.get k (agent_id_to_socket st)) as [s'|].
  - rewrite sends_to_batch. apply negb_true_iff in H. now rewrite H.
  - apply sends_to_batch_none.
Qed.

Lemma sends_to_batches_other env st a s ks :
  forallb
    (fun k =>
       String.eqb k a
       || match Obj.get k (agent_id_to_socket st) with
          | Some s' => negb (Nat.eqb s' s)
          | None => true
          end) ks = true ->
  ~ In a ks ->
  sends_to s (flat_map (batch_of env st) ks) = [].
Proof.
  induction ks as [|k ks IH]; intros Hall Hnin; simpl; [reflexivity|].
  simpl in Hall. apply andb_prop in Hall. destruct Hall as [Hk Hall].
  rewrite sends_to_app, IH; auto; [|intros H; apply Hnin; now right].
  rewrite app_nil_r. apply sends_to_batch_of_other.
  apply orb_prop in Hk. destruct Hk as [Hk|Hk]; auto.
  apply String.eqb_eq in Hk. subst k. exfalso. apply Hnin. now left.
Qed.

Lemma forallb_app_inv {A} (f : A -> bool) l1 l2 :
  forallb f (l1 ++ l2) = true -> forallb f l1 = true /\ forallb f l2 = true.
Proof. rewrite forallb_app. apply andb_prop. Qed.

(** ** The per-agent batch *)

(** C4.  Take a registry in order in which agent [a] has socket [s] and
    record [r].  After one tick the queue of [a] is empty.  Whatever
    packets [ps] are pushed onto it before the next tick, that tick ends
    normally and hands to the send primitive, for socket [s], exactly the
    packets [ps], in the order they were pushed and in one unbroken run
    of its trace; on an open socket these are the frames sent on [s], and
    when nothing else uses [s] they are the only ones.  The queue is empty
    again afterwards, so a later push starts a new batch. *)
Theorem main_thread_delivers_queued_batch env1 env2 st0 a s r ps :
  registry_ok st0 = true ->
  Obj.get a (agent_id_to_socket st0) = Some s ->
  Obj.get a (agent_id_to_agent st0) = Some r ->
  let st1 := state_of (main_thread env1 st0) in
  let st2 := state_of (for_each ps (push_unsent (Some r)) st1) in
  let st3 := state_of (main_thread env2 st2) in
  result_of (main_thread env1 st0) = Ok tt
  /\ unsent_messages (heap st1 r) = []
  /\ result_of (for_each ps (push_unsent (Some r)) st1) = Ok tt
  /\ unsent_messages (heap st2 r) = ps
  /\ result_of (main_thread env2 st2) = Ok tt
  /\ (exists pre post,
        trace_of (main_thread env2 st2) =
        pre ++ flat_map (send_trace env2 (Some s)) ps ++ post
        /\ (socket_unshared st2 a s = true ->
            sends_to s pre = [] /\ sends_to s post = []))
  /\ sends_to s (flat_map (send_trace env2 (Some s)) ps) =
     (if Nat.eqb (readyState (env2 s)) 3 then [] else ps)
  /\ unsent_messages (heap st3 r) = []
  /\ forall p,
       unsent_messages (heap (state_of (push_unsent (Some r) p st3)) r) = [p].
Proof.
  intros Hok Hs Hr st1 st2 st3.
  destruct (registry_ok_refs st0 Hok) as [rs [Hrs Hd]].
  assert (In a (Obj.keys (agent_id_to_socket st0))) as Hin
    by (eapply ObjFacts.get_some_in_keys; eauto).
  assert (In r rs) as Hrin by (eapply refs_of_in; eauto).
  (* first tick *)
  pose proof (main_thread_run env1 st0 rs Hrs Hd) as Htick1.
  assert (unsent_messages (heap st1 r) = []) as Hempty1.
  { unfold st1. rewrite Htick1. simpl. now apply clear_all_in. }
  (* the pushes *)
  destruct (push_all_spec r ps st1)
    as [st2' [Hpush [P1 [P2 [P3 [P4 [P5 P6]]]]]]].
  assert (st2 = st2') as E2 by (unfold st2; now rewrite Hpush).
  assert (agent_id_to_socket st2 = agent_id_to_socket st0) as Q1.
  { rewrite E2, P1. unfold st1. now rewrite Htick1. }
  assert (agent_id_to_agent st2 = agent_id_to_agent st0) as Q2.
  { rewrite E2, P2. unfold st1. now rewrite Htick1. }
  assert (unsent_messages (heap st2 r) = ps) as Hq.
  { rewrite E2, P5, Hempty1. reflexivity. }
  (* second tick *)
  assert (refs_of (agent_id_to_agent st2) (Obj.keys (agent_id_to_socket st2))
          = Some rs) as Hrs2 by (now rewrite Q1, Q2).
  pose proof (main_thread_run env2 st2 rs Hrs2 Hd) as Htick2.
  assert (NoDup (Obj.keys (agent_id_to_socket st2))) as Hnd
    by (eapply distinct_refs_nodup; eauto).
  assert (In a (Obj.keys (agent_id_to_socket st2))) as Hin2
    by (now rewrite Q1).
  destruct (in_split _ _ Hin2) as [l1 [l2 Hsplit]].
  assert (batch_of env2 st2 a = flat_map (send_trace env2 (Some s)) ps)
    as Hbatch.
  { unfold batch_of. now rewrite Q1, Q2, Hr, Hs, Hq. }
  repeat split.
  - now rewrite Htick1.
  - exact Hempty1.
  - now rewrite Hpush.
  - exact Hq.
  - now rewrite Htick2.
  - exists (flat_map (batch_of env2 st2) l1).
    exists (flat_map (batch_of env2 st2) l2
            ++ flat_map (send_trace env2 (mephisto_socket st2))
                 (mephisto_message_queue st2)
            ++ [setTimeout fn_main_thread 50]).
    split.
    + rewrite Htick2. unfold trace_of. simpl snd.
      rewrite Hsplit, flat_map_app. simpl flat_map.
      rewrite Hbatch, <- !app_assoc. reflexivity.
    + intros Hun. unfold socket_unshared in Hun.
      apply andb_prop in Hun. destruct Hun as [Hkeys Hsys].
      rewrite Hsplit in Hkeys, Hnd.
      apply forallb_app_inv in Hkeys. destruct Hkeys as [Hk1 Hk2].
      simpl in Hk2. apply andb_prop in Hk2. destruct Hk2 as [_ Hk2].
      pose proof (NoDup_remove_2 _ _ _ Hnd) as Hnin.
      split.
      * apply sends_to_batches_other with (a := a); auto.
        intros H. apply Hnin. apply in_or_app. now left.
      * rewrite !sends_to_app.
        rewrite (sends_to_batches_other env2 st2 a s l2); auto;
          [|intros H; apply Hnin; apply in_or_app; now right].
        simpl. rewrite app_nil_r.
        destruct (mephisto_socket st2) as [s'|].
        -- rewrite sends_to_batch. apply negb_true_iff in Hsys.
           now rewrite Hsys.
        -- apply sends_to_batch_none.
  - rewrite sends_to_batch, Nat.eqb_refl. simpl.
    now destruct (Nat.eqb (readyState (env2 s)) 3).
  - unfold st3. rewrite Htick2. simpl. now apply clear_all_in.
  - intros p. simpl. unfold heap_write. rewrite Nat.eqb_refl. simpl.
    unfold st3. rewrite Htick2. simpl.
    rewrite (clear_all_in rs (heap st2) r Hrin). reflexivity.
Qed.

(** ** The send primitive: one retry *)

(** C9.  [_send_message] returns normally and does nothing when it is
    given no socket or a closed one.  On an open socket it sends once; if
    that send is answered with an error it sets one 500 ms timer, whose
    function sends once more; an error on that second send is written to
    the console and nothing else happens.  So a failure followed by a
    success makes two attempts and puts the frame out once, two failures
    make two attempts and put nothing out, and in no case is a module
    variable (in particular a queue) changed. *)
Theorem send_message_retries_once env envc s p e1 e2 r1 r2 st :
  Nat.eqb (readyState (env s)) 3 = false ->
  Nat.eqb (readyState (envc s)) 3 = true ->
  _send_message env None p st = (Ok tt, st, [])
  /\ _send_message envc (Some s) p st = (Ok tt, st, [])
  /\ send_reliable_run env None p r1 r2 st = (st, [], [])
  /\ send_reliable_run envc (Some s) p r1 r2 st = (st, [], [])
  /\ send_reliable_run env (Some s) p None r2 st =
     (st,
      [console_log (LogValue p); socket_send s p (ack s p)],
      [(s, p)])
  /\ send_reliable_run env (Some s) p (Some e1) None st =
     (st,
      [console_log (LogValue p); socket_send s p (ack s p);
       setTimeout (fn_retry s p) 500; socket_send s p ack2],
      [(s, p)])
  /\ send_reliable_run env (Some s) p (Some e1) (Some e2) st =
     (st,
      [console_log (LogValue p); socket_send s p (ack s p);
       setTimeout (fn_retry s p) 500; socket_send s p ack2;
       console_log (LogError e2)],
      []).
Proof.
  intros Hopen Hclosed.
  unfold send_reliable_run, _send_message.
  rewrite Hopen, Hclosed. repeat split.
Qed.

(** ** The router *)

Lemma route_object env socket props st :
  let packet := VObj props in
  route env socket (Wellformed packet) st =
  (emit (console_log (LogValue packet)) ;;
   if packet_type_is packet PACKET_TYPE_REQUEST_AGENT_STATUS then
     handle_get_agent_status packet
   else if packet_type_is packet PACKET_TYPE_AGENT_ACTION then
     handle_forward packet
   else if packet_type_is packet PACKET_TYPE_ALIVE then
     handle_alive env socket packet
   else if packet_type_is packet PACKET_TYPE_PROVIDER_DETAILS
           || packet_type_is packet PACKET_TYPE_INIT_DATA then
     resolve_provider_request packet
   else ret tt) st.
Proof.
  unfold route, packet_type_is. run_m.
  destruct (Obj.get "packet_type" props) as [v|]; simpl; [|reflexivity].
  now rewrite !let_eta.
Qed.

Lemma packet_type_is_object packet c :
  packet_type_is packet c = true -> exists props, packet = VObj props.
Proof. destruct packet; try discriminate. eauto. Qed.

Lemma is_reply_object packet :
  is_reply packet = true -> exists props, packet = VObj props.
Proof.
  unfold is_reply. intros H. apply andb_prop in H. destruct H as [_ H].
  apply orb_prop in H. destruct H; eapply packet_type_is_object; eauto.
Qed.

(** ** Forwarding agent actions *)

Lemma handle_forward_throws packet st :
  handle_forward packet st = (Throw (ReferenceError "alive_packet"), st, []).
Proof. reflexivity. Qed.

(** C1 (what the code does).  [handle_forward] throws a [ReferenceError]
    on every packet and in every state, before it has looked at the
    receiver.  The message handler catches it: an [agent_action] packet,
    whoever its receiver is, is logged and dropped, and the state (the
    system queue and every agent's queue included) stays as it was. *)
Theorem agent_action_is_not_routed env socket packet st :
  packet_type_is packet PACKET_TYPE_REQUEST_AGENT_STATUS = false ->
  packet_type_is packet PACKET_TYPE_AGENT_ACTION = true ->
  handle_forward packet st = (Throw (ReferenceError "alive_packet"), st, [])
  /\ on_message env socket (Wellformed packet) st =
     (Ok tt, st,
      [console_log (LogValue packet);
       console_log (LogText "Transient error on message");
       console_log (LogError (ReferenceError "alive_packet"))]).
Proof.
  intros Hstatus Haction. split; [reflexivity|].
  destruct (packet_type_is_object _ _ Haction) as [props ->].
  unfold on_message, try_catch. rewrite route_object. cbv zeta.
  rewrite Hstatus, Haction.
  erewrite bind_ok by reflexivity.
  rewrite handle_forward_throws. reflexivity.
Qed.

(** ** Registering agents *)

Lemma handle_alive_cases env socket alive_packet st :
  (exists e, handle_alive env socket alive_packet st = (Throw e, st, []))
  \/ handle_alive env socket alive_packet st = system_registered socket st.
Proof.
  unfold handle_alive, system_registered.
  destruct alive_packet as [| | | | |elems|props];
    try (left; eexists; reflexivity).
  run_m.
  destruct (loose_eq _ SYSTEM_SOCKET_ID).
  - right. destruct (main_thread_timeout st); reflexivity.
  - left. eexists. reflexivity.
Qed.

#[export] Instance agents_kept_compositional : Compositional agents_kept.
Proof.
  split; unfold agents_kept.
  - intros st. auto.
  - intros st t1 st1 t2 st2 [A1 [A2 A3]] [B1 [B2 B3]].
    repeat split; congruence.
Qed.

Lemma handle_alive_agents_kept env socket alive_packet :
  respects agents_kept (handle_alive env socket alive_packet).
Proof.
  intros st. unfold agents_kept.
  destruct (handle_alive_cases env socket alive_packet st) as [[e H]|H];
    rewrite H; unfold system_registered, state_of.
  - simpl. auto.
  - destruct (main_thread_timeout st); simpl; auto.
Qed.

Lemma handle_agents_kept env ev : respects agents_kept (handle env ev).
Proof.
  destruct ev; simpl;
    unfold on_connection, on_message, on_disconnect, on_error, run_timer,
      run_callback, express, post_provider_route, post_submit_task,
      get_is_alive.
  all: respects_with ltac:(first [ apply handle_alive_agents_kept
                                 | solve [unfold agents_kept; simpl; auto] ]).
Qed.

(** No sequence of events changes an agent map. *)
Lemma run_agents_kept evs st :
  agents_kept st (snd (run evs st)) (fst (run evs st)).
Proof.
  apply (respects_run agents_kept (fun _ => true)
           (fun env ev _ => handle_agents_kept env ev)).
  induction evs; auto.
Qed.

(** A registry that is in order stays in order. *)
Lemma registry_ok_run evs st :
  registry_ok st = true -> registry_ok (fst (run evs st)) = true.
Proof.
  destruct (run_agents_kept evs st) as [H1 [_ H3]].
  unfold registry_ok. now rewrite H1, H3.
Qed.

(** C2 (what the code does).  [handle_alive] never changes one of the
    three agent maps or an agent record, whatever it is given.  For a
    sender other than the system identity it throws a [TypeError] at the
    call of the class constructor, so the three assignments that would
    bind the socket and the agent are not reached; the agent id is not
    known afterwards.  No sequence of events makes the server started
    from its initial state know an agent. *)
Theorem handle_alive_registers_no_agent env socket alive_packet sender_id
  props st :
  let st' := state_of (handle_alive env socket alive_packet st) in
  (agent_id_to_socket st' = agent_id_to_socket st
   /\ socket_id_to_agent st' = socket_id_to_agent st
   /\ agent_id_to_agent st' = agent_id_to_agent st
   /\ heap st' = heap st)
  /\ handle_alive env socket (VObj (("sender_id", sender_id) :: props)) st =
     (if loose_eq sender_id SYSTEM_SOCKET_ID then
        handle_alive env socket (VObj [("sender_id", VStr SYSTEM_SOCKET_ID)])
          st
      else
        (Throw
           (TypeError
              "Class constructor LocalAgentState cannot be invoked without 'new'"),
         st, []))
  /\ on_message Examples.env_open 2 (Wellformed Examples.alive_agent)
       initial_state =
     (Ok tt, initial_state,
      [console_log (LogValue Examples.alive_agent);
       console_log (LogText "Transient error on message");
       console_log
         (LogError
            (TypeError
               "Class constructor LocalAgentState cannot be invoked without 'new'"))])
  /\ Obj.get "agent_1"
       (agent_id_to_agent
          (state_of (on_message Examples.env_open 2
                       (Wellformed Examples.alive_agent) initial_state))) =
     None
  /\ (forall evs,
        agent_id_to_agent (fst (run evs initial_state)) = Obj.empty
        /\ agent_id_to_socket (fst (run evs initial_state)) = Obj.empty).
Proof.
  split; [|split; [|split; [|split]]]; try reflexivity;
    [| |intros evs; destruct (run_agents_kept evs initial_state)
                      as [H1 [_ H3]]; now rewrite H1, H3].
  - destruct (handle_alive_cases env socket alive_packet st) as [[e H]|H];
      rewrite H.
    + repeat split.
    + unfold system_registered.
      destruct (main_thread_timeout st); repeat split.
  - unfold handle_alive. run_m.
    destruct (loose_eq sender_id SYSTEM_SOCKET_ID) eqn:E; reflexivity.
Qed.

(** ** Replies in the router *)

Lemma route_reply env socket packet st :
  is_reply packet = true ->
  route env socket (Wellformed packet) st =
  (emit (console_log (LogValue packet)) ;; resolve_provider_request packet) st.
Proof.
  intros H. destruct (is_reply_object packet H) as [props ->].
  rewrite route_object. cbv zeta. unfold is_reply in H.
  apply andb_prop in H. destruct H as [H H4].
  apply andb_prop in H. destruct H as [H H3].
  apply andb_prop in H. destruct H as [H1 H2].
  apply negb_true_iff in H1, H2, H3.
  unfold bind. simpl emit. cbv iota. rewrite H1, H2, H3, H4. reflexivity.
Qed.

Lemma correlation_key_pure packet st :
  correlation_key packet st =
  (result_of (correlation_key packet initial_state), st, []).
Proof.
  unfold correlation_key.
  destruct packet as [| | | | |elems|props]; try reflexivity.
  run_m.
  destruct (match Obj.get "data" props with
            | Some x => x | None => VUndefined end)
    as [| | | | |delems|dprops]; try reflexivity.
  simpl.
  destruct (match Obj.get "request_id" dprops with
            | Some x => x | None => VUndefined end); reflexivity.
Qed.

Lemma resolve_provider_request_run packet k st :
  reply_key packet = Some k ->
  resolve_provider_request packet st =
  match Obj.get k (pending_provider_requests st) with
  | None =>
      (Throw (TypeError "Cannot read property 'json' of undefined"), st, [])
  | Some res =>
      (Ok tt,
       set_pending_provider_requests
         (Obj.delete k (pending_provider_requests st)) st,
       [res_json res packet])
  end.
Proof.
  unfold reply_key, resolve_provider_request. intros Hk.
  unfold bind at 1. rewrite correlation_key_pure.
  destruct (result_of (correlation_key packet initial_state)) as [key|e];
    [|discriminate].
  injection Hk as <-. run_m.
  destruct (Obj.get (to_string key) (pending_provider_requests st));
    reflexivity.
Qed.

(** ** Replies for parked HTTP responses *)

(** C5.  A [provider_details] or [initial_data_send] packet whose key is
    not in the pending table makes the resolving code call [json] on
    [undefined]: a [TypeError] is thrown at that place, before anything is
    written or deleted.  No test guards the lookup; the exception leaves
    the body of the message handler and is caught by its [try], which
    writes it to the console. *)
Theorem unknown_reply_dereferences_undefined env socket packet k st :
  is_reply packet = true ->
  reply_key packet = Some k ->
  Obj.get k (pending_provider_requests st) = None ->
  resolve_provider_request packet st =
    (Throw (TypeError "Cannot read property 'json' of undefined"), st, [])
  /\ route env socket (Wellformed packet) st =
     (Throw (TypeError "Cannot read property 'json' of undefined"), st,
      [console_log (LogValue packet)])
  /\ on_message env socket (Wellformed packet) st =
     (Ok tt, st,
      [console_log (LogValue packet);
       console_log (LogText "Transient error on message");
       console_log
         (LogError (TypeError "Cannot read property 'json' of undefined"))]).
Proof.
  intros Hreply Hkey Hnone.
  assert (resolve_provider_request packet st =
          (Throw (TypeError "Cannot read property 'json' of undefined"),
           st, [])) as Hres.
  { rewrite (resolve_provider_request_run packet k st Hkey). now rewrite Hnone. }
  assert (route env socket (Wellformed packet) st =
          (Throw (TypeError "Cannot read property 'json' of undefined"), st,
           [console_log (LogValue packet)])) as Hroute.
  { rewrite route_reply by assumption.
    erewrite bind_ok by reflexivity. now rewrite Hres. }
  repeat split; auto.
  unfold on_message, try_catch. rewrite Hroute. reflexivity.
Qed.

Lemma on_message_reply env socket packet k st :
  is_reply packet = true ->
  reply_key packet = Some k ->
  on_message env socket (Wellformed packet) st =
  match Obj.get k (pending_provider_requests st) with
  | None =>
      (Ok tt, st,
       [console_log (LogValue packet);
        console_log (LogText "Transient error on message");
        console_log
          (LogError (TypeError "Cannot read property 'json' of undefined"))])
  | Some res =>
      (Ok tt,
       set_pending_provider_requests
         (Obj.delete k (pending_provider_requests st)) st,
       [console_log (LogValue packet); res_json res packet])
  end.
Proof.
  intros Hreply Hkey. unfold on_message, try_catch.
  rewrite route_reply by assumption.
  erewrite bind_ok by reflexivity.
  rewrite (resolve_provider_request_run packet k st Hkey).
  destruct (Obj.get k (pending_provider_requests st)); reflexivity.
Qed.

Lemma run_unknown_replies k st later :
  Obj.get k (pending_provider_requests st) = None ->
  Forall (fun x => is_reply (snd x) = true /\ reply_key (snd x) = Some k)
    later ->
  fst (run (as_messages later) st) = st
  /\ all_responses (snd (run (as_messages later) st)) = [].
Proof.
  intros Hnone Hall. induction Hall as [|[[env socket] p] later [H1 H2] _ IH].
  - split; reflexivity.
  - simpl in H1, H2. simpl. unfold handle.
    rewrite (on_message_reply env socket p k st H1 H2), Hnone.
    destruct (run (as_messages later) st) as [st2 t2]. simpl in *.
    destruct IH as [-> ->]. split; reflexivity.
Qed.

(** C6.  When a response is parked under [rid], the first reply with that
    key writes the packet to it, once, and removes the entry.  Every
    further reply with the same key finds nothing: its [TypeError] is
    caught inside the message handler, which returns normally, leaves the
    state as it is and writes to no response.  Over the first reply and
    any number of repetitions exactly one response body has been
    written. *)
Theorem reply_resolves_at_most_once env1 socket1 p1 rid res st later :
  is_reply p1 = true ->
  reply_key p1 = Some rid ->
  Obj.get rid (pending_provider_requests st) = Some res ->
  Forall (fun x => is_reply (snd x) = true /\ reply_key (snd x) = Some rid)
    later ->
  let st1 :=
    set_pending_provider_requests
      (Obj.delete rid (pending_provider_requests st)) st in
  on_message env1 socket1 (Wellformed p1) st =
    (Ok tt, st1, [console_log (LogValue p1); res_json res p1])
  /\ Obj.get rid (pending_provider_requests st1) = None
  /\ (forall env2 socket2 p2,
        is_reply p2 = true ->
        reply_key p2 = Some rid ->
        on_message env2 socket2 (Wellformed p2) st1 =
        (Ok tt, st1,
         [console_log (LogValue p2);
          console_log (LogText "Transient error on message");
          console_log
            (LogError
               (TypeError "Cannot read property 'json' of undefined"))]))
  /\ fst (run (as_messages later) st1) = st1
  /\ all_responses
       (trace_of (on_message env1 socket1 (Wellformed p1) st)
        ++ snd (run (as_messages later) st1)) = [(res, p1)].
Proof.
  intros Hreply Hkey Hres Hlater st1.
  assert (Obj.get rid (pending_provider_requests st1) = None) as Hgone
    by apply ObjFacts.get_delete_same.
  assert (on_message env1 socket1 (Wellformed p1) st =
          (Ok tt, st1, [console_log (LogValue p1); res_json res p1])) as H1.
  { rewrite (on_message_reply env1 socket1 p1 rid st Hreply Hkey).
    now rewrite Hres. }
  destruct (run_unknown_replies rid st1 later Hgone Hlater) as [Hst Hnone].
  repeat split; auto.
  - intros env2 socket2 p2 Hr2 Hk2.
    rewrite (on_message_reply env2 socket2 p2 rid st1 Hr2 Hk2).
    now rewrite Hgone.
  - rewrite H1. simpl. now rewrite Hnone.
Qed.

(** ** Provider requests over HTTP *)

(** C3 (amended).  Each of the four routes parks the response under the
    fresh request id and hands the request packet to the send primitive
    there and then, aimed at the system socket of that moment.  The
    system queue is not touched, so the packet is no part of what the
    next tick drains from it. *)
Theorem provider_request_sent_at_call_time env env' rand r props res st :
  let provider_data :=
    match Obj.get "provider_data" props with
    | Some x => x
    | None => VUndefined
    end in
  let packet :=
    request_packet_of (uuidv4 rand) (route_request_type r) provider_data in
  let st' :=
    set_pending_provider_requests
      (Obj.set (uuidv4 rand) res (pending_provider_requests st)) st in
  post_provider_route env rand r (VObj props) res st =
    (Ok tt, st', send_trace env (mephisto_socket st) packet)
  /\ mephisto_message_queue st' = mephisto_message_queue st
  /\ trace_of (flush_system env' st') =
     flat_map (send_trace env' (mephisto_socket st))
       (mephisto_message_queue st).
Proof.
  cbv zeta. repeat split.
  - unfold post_provider_route, make_provider_request. run_m.
    rewrite _send_message_run. reflexivity.
  - now rewrite flush_system_run.
Qed.

(** C3 (as stated) fails: with an open system socket, a call of
    [/request_agent] leaves the system queue empty and sends the packet
    during the call. *)
Lemma provider_request_not_enqueued :
  let packet :=
    request_packet_of (uuidv4 Examples.rand0) PACKET_TYPE_NEW_AGENT
      (VObj [("a", VNum "1")]) in
  let o :=
    post_provider_route Examples.env_open Examples.rand0 request_agent
      Examples.body0 9 Examples.st_system in
  mephisto_message_queue (state_of o) = []
  /\ all_sends (trace_of o) = [(1, packet)]
  /\ ~ (In packet (mephisto_message_queue (state_of o))
        /\ all_sends (trace_of o) = []).
Proof.
  cbv zeta. split; [reflexivity|]. split; [reflexivity|].
  intros [Hin _]. vm_compute in Hin. exact Hin.
Qed.

(** ** The status snapshot *)

Lemma statuses_loop st ks : forall acc,
  (forall k, In k ks -> exists r, Obj.get k (agent_id_to_agent st) = Some r) ->
  exists out,
    fold_m ks status_step acc st = (Ok out, st, [])
    /\ (forall k, In k (map fst out) <-> In k ks \/ In k (map fst acc))
    /\ (forall k r,
          In k ks -> Obj.get k (agent_id_to_agent st) = Some r ->
          Obj.get k out = Some (VStr (status (heap st r))))
    /\ (forall k, ~ In k ks -> Obj.get k out = Obj.get k acc).
Proof.
  induction ks as [|k0 ks IH]; intros acc Hknown.
  - exists acc. simpl. repeat split; auto; try tauto.
  - destruct (Hknown k0 (or_introl eq_refl)) as [r0 Hr0].
    set (acc' := Obj.set k0 (VStr (status (heap st r0))) acc).
    assert (status_step acc k0 st = (Ok acc', st, [])) as Hstep.
    { unfold status_step. run_m. rewrite Hr0. reflexivity. }
    destruct (IH acc') as [out [Hrun [Hkeys [Hvals Hrest]]]].
    { intros k Hk. apply Hknown. now right. }
    exists out. split; [|split; [|split]].
    + simpl. erewrite bind_ok by exact Hstep. rewrite Hrun. reflexivity.
    + intros k. rewrite Hkeys. unfold acc'. rewrite ObjFacts.in_set.
      simpl. intuition.
    + intros k r Hin Hr.
      destruct (in_dec string_dec k ks) as [Hks|Hks].
      * now apply Hvals.
      * destruct Hin as [->|Hin]; [|contradiction].
        rewrite (Hrest k Hks). unfold acc'.
        rewrite ObjFacts.get_set_same. congruence.
    + intros k Hnin. rewrite Hrest by (intros H; apply Hnin; now right).
      unfold acc'. apply ObjFacts.get_set_other.
      intros ->. apply Hnin. now left.
Qed.

(** C8.  A [request_status] packet puts exactly one packet at the end of
    the system queue and changes nothing else.  That packet has type
    [return_status], the server identity as sender and the system identity
    as receiver, and its data is an object whose property names are
    exactly the names of the known-agents map, each holding the status of
    the record that map points to. *)
Theorem request_status_snapshot env socket packet st :
  packet_type_is packet PACKET_TYPE_REQUEST_AGENT_STATUS = true ->
  exists agent_statuses,
    on_message env socket (Wellformed packet) st =
    (Ok tt,
     set_mephisto_message_queue
       (mephisto_message_queue st
        ++ [VObj [("packet_type", VStr PACKET_TYPE_RETURN_AGENT_STATUS);
                  ("sender_id", VStr SERVER_SOCKET_ID);
                  ("receiver_id", VStr SYSTEM_SOCKET_ID);
                  ("data", VObj agent_statuses)]]) st,
     [console_log (LogValue packet)])
    /\ (forall k,
          In k (Obj.keys agent_statuses) <->
          In k (Obj.keys (agent_id_to_agent st)))
    /\ (forall k r,
          Obj.get k (agent_id_to_agent st) = Some r ->
          Obj.get k agent_statuses = Some (VStr (status (heap st r)))).
Proof.
  intros Htype. destruct (packet_type_is_object _ _ Htype) as [props ->].
  destruct (statuses_loop st (Obj.keys (agent_id_to_agent st)) Obj.empty)
    as [out [Hrun [Hkeys [Hvals _]]]].
  { intros k Hk. now apply ObjFacts.in_keys_get_some. }
  exists out. split; [|split].
  - unfold on_message, try_catch. rewrite route_object. cbv zeta.
    rewrite Htype.
    erewrite bind_ok by reflexivity.
    unfold handle_get_agent_status.
    erewrite bind_ok by reflexivity.
    erewrite bind_ok by exact Hrun.
    reflexivity.
  - intros k. rewrite ObjFacts.in_keys. rewrite Hkeys. simpl. tauto.
  - intros k r Hr. apply Hvals; auto.
    eapply ObjFacts.get_some_in_keys; eauto.
Qed.

(** ** Starting the dispatch loop *)

Lemma main_timers_app t1 t2 :
  main_timers (t1 ++ t2) = main_timers t1 + main_timers t2.
Proof.
  induction t1 as [|e t1 IH]; simpl; auto.
  destruct e; auto. destruct fn; simpl; lia.
Qed.

#[export] Instance timer_paid_compositional : Compositional timer_paid.
Proof.
  split; unfold timer_paid.
  - intros st. simpl. lia.
  - intros st t1 st1 t2 st2 H1 H2. rewrite main_timers_app. lia.
Qed.

Lemma armed_le_1 st : armed st <= 1.
Proof. unfold armed. destruct (main_thread_timeout st); lia. Qed.

Lemma handle_alive_timer_paid env socket alive_packet :
  respects timer_paid (handle_alive env socket alive_packet).
Proof.
  intros st. unfold timer_paid.
  destruct (handle_alive_cases env socket alive_packet st) as [[e H]|H];
    rewrite H; unfold trace_of, state_of.
  - simpl. lia.
  - unfold system_registered, armed.
    destruct (main_thread_timeout st) eqn:E; simpl; rewrite ?E; lia.
Qed.

Ltac timer_side :=
  unfold timer_paid, armed, trace_of, state_of; simpl;
  repeat match goal with
         | |- context [main_thread_timeout ?st] =>
             destruct (main_thread_timeout st)
         end; simpl; lia.

(** Outside the tick, [main_thread] is handed to [setTimeout] by a
    registration that finds the timer variable unset, and by nothing
    else. *)
Lemma handle_timer_paid env ev :
  is_tick ev = false -> respects timer_paid (handle env ev).
Proof.
  intros Hev. destruct ev as [| | | |fn| | | |];
    try (destruct fn; [discriminate|]); simpl;
    unfold on_connection, on_message, on_disconnect, on_error, run_timer,
      run_callback, express, post_provider_route, post_submit_task,
      get_is_alive.
  all: respects_with ltac:(first [ apply handle_alive_timer_paid
                                 | solve [timer_side] ]).
Qed.

Lemma flush_agents_timer_paid env : respects timer_paid (flush_agents env).
Proof.
  unfold flush_agents, flush_agent.
  respects_with ltac:(solve [timer_side]).
Qed.

Lemma flush_system_timer_paid env : respects timer_paid (flush_system env).
Proof.
  unfold flush_system.
  respects_with ltac:(solve [timer_side]).
Qed.

(** A tick hands [main_thread] to [setTimeout] once, at its end, or not
    at all when it is cut short. *)
Lemma main_thread_timers env st :
  main_timers (trace_of (main_thread env st)) + armed st <=
  armed (state_of (main_thread env st)) + 1.
Proof.
  pose proof (flush_agents_timer_paid env st) as H1.
  unfold main_thread, bind, state_of, trace_of.
  unfold timer_paid, state_of, trace_of in H1.
  destruct (flush_agents env st) as [[[u1|e1] st1] t1]; simpl in *;
    [|lia].
  pose proof (flush_system_timer_paid env st1) as H2.
  unfold timer_paid, state_of, trace_of in H2.
  destruct (flush_system env st1) as [[[u2|e2] st2] t2]; simpl in *.
  - rewrite !main_timers_app. simpl.
    pose proof (armed_le_1 st2). lia.
  - rewrite main_timers_app. lia.
Qed.

Lemma handle_timers env ev st :
  main_timers (trace_of (handle env ev st)) + armed st <=
  armed (state_of (handle env ev st)) + (if is_tick ev then 1 else 0).
Proof.
  destruct (is_tick ev) eqn:Hev.
  - destruct ev as [| | | |fn| | | |]; try discriminate.
    destruct fn; try discriminate. apply main_thread_timers.
  - pose proof (handle_timer_paid env ev Hev st) as H.
    unfold timer_paid in H. lia.
Qed.

(** Over any events, from any state: what the trace holds of
    [setTimeout(main_thread, 50)] beyond one per tick is the one call
    that set the timer variable, if it was unset. *)
Lemma run_timers evs : forall st,
  main_timers (snd (run evs st)) + armed st <=
  armed (fst (run evs st)) + ticks evs.
Proof.
  induction evs as [|[env ev] evs IH]; intros st.
  - simpl. lia.
  - pose proof (handle_timers env ev st) as H.
    assert (ticks ((env, ev) :: evs) =
            (if is_tick ev then 1 else 0) + ticks evs) as ->.
    { unfold ticks. simpl. destruct (is_tick ev); reflexivity. }
    unfold state_of, trace_of in H. simpl.
    destruct (handle env ev st) as [[[u|e] st1] t1]; simpl in *.
    + specialize (IH st1). destruct (run evs st1) as [st2 t2]. simpl in *.
      rewrite main_timers_app. destruct (is_tick ev); lia.
    + destruct (is_tick ev); lia.
Qed.

(** ** Who holds the system role *)

#[export] Instance system_socket_kept_compositional :
  Compositional system_socket_kept.
Proof.
  split; unfold system_socket_kept.
  - reflexivity.
  - intros st t1 st1 t2 st2 H1 H2. congruence.
Qed.

Lemma on_message_state env socket raw st :
  state_of (on_message env socket raw st) =
  state_of (route env socket raw st).
Proof.
  unfold on_message, try_catch.
  destruct (route env socket raw st) as [[[u|e] st1] t1]; reflexivity.
Qed.

Ltac socket_side := solve [unfold system_socket_kept; reflexivity].

Lemma handle_alive_other env socket props st :
  match Obj.get "sender_id" props with
  | Some sender_id => loose_eq sender_id SYSTEM_SOCKET_ID
  | None => false
  end = false ->
  state_of (handle_alive env socket (VObj props) st) = st.
Proof.
  intros H. unfold handle_alive. run_m.
  destruct (Obj.get "sender_id" props) as [sender|]; simpl.
  - rewrite H. reflexivity.
  - reflexivity.
Qed.

Lemma on_message_socket_kept env socket raw :
  is_registration (ev_message socket raw) = false ->
  respects system_socket_kept (on_message env socket raw).
Proof.
  intros H st. unfold system_socket_kept. rewrite on_message_state.
  destruct raw as [|packet]; [reflexivity|].
  destruct packet as [| | | | |elems|props]; try reflexivity.
  rewrite route_object. cbv zeta.
  simpl in H. unfold is_system_alive in H.
  destruct (packet_type_is (VObj props) PACKET_TYPE_REQUEST_AGENT_STATUS).
  { assert (respects system_socket_kept
              (emit (console_log (LogValue (VObj props))) ;;
               handle_get_agent_status (VObj props))) as Hr.
    { unfold handle_get_agent_status, status_step.
      respects_with socket_side. }
    exact (Hr st). }
  destruct (packet_type_is (VObj props) PACKET_TYPE_AGENT_ACTION).
  { assert (respects system_socket_kept
              (emit (console_log (LogValue (VObj props))) ;;
               handle_forward (VObj props))) as Hr.
    { unfold handle_forward. respects_with socket_side. }
    exact (Hr st). }
  destruct (packet_type_is (VObj props) PACKET_TYPE_ALIVE).
  { simpl in H. unfold bind, emit.
    pose proof (handle_alive_other env socket props st H) as Hst.
    destruct (handle_alive env socket (VObj props) st) as [[r st1] t1].
    simpl in *. now subst. }
  destruct (packet_type_is (VObj props) PACKET_TYPE_PROVIDER_DETAILS
            || packet_type_is (VObj props) PACKET_TYPE_INIT_DATA).
  { assert (respects system_socket_kept
              (emit (console_log (LogValue (VObj props))) ;;
               resolve_provider_request (VObj props))) as Hr.
    { unfold resolve_provider_request, correlation_key.
      respects_with socket_side. }
    exact (Hr st). }
  reflexivity.
Qed.

(** No event but a registration changes the system socket. *)
Lemma handle_socket_kept env ev :
  is_registration ev = false -> respects system_socket_kept (handle env ev).
Proof.
  intros Hev.
  destruct ev as [|socket raw| | | | | | |];
    [|exact (on_message_socket_kept env socket raw Hev)|..]; simpl;
    unfold on_connection, on_disconnect, on_error, run_timer, main_thread,
      flush_agents, flush_agent, flush_system, run_callback, express,
      post_provider_route, make_provider_request, post_submit_task,
      get_is_alive.
  all: respects_with socket_side.
Qed.

Lemma run_socket_kept evs st :
  forallb (fun x => negb (is_registration (snd x))) evs = true ->
  mephisto_socket (fst (run evs st)) = mephisto_socket st.
Proof.
  apply (respects_run system_socket_kept
           (fun ev => negb (is_registration ev))).
  intros env ev Hev. apply handle_socket_kept.
  now apply negb_true_iff.
Qed.

(** ** Where packets for the system connection go *)

Lemma post_provider_sends env rand r body res st s :
  mephisto_socket st = Some s ->
  Forall (fun x => fst x = s)
    (all_sends (trace_of (handle env (ev_post_provider rand r body res) st))).
Proof.
  intros Hs. simpl.
  unfold express, post_provider_route, make_provider_request, try_catch.
  generalize (uuidv4 rand). intros rid.
  destruct body; run_m; rewrite ?let_eta, ?_send_message_run, ?Hs; simpl;
    rewrite ?app_nil_r;
    try destruct (Nat.eqb (readyState (env s)) 3); simpl;
    repeat constructor.
Qed.

Lemma post_submit_sends env body files res st s :
  mephisto_socket st = Some s ->
  Forall (fun x => fst x = s)
    (all_sends (trace_of (handle env (ev_post_submit_task body files res) st))).
Proof.
  intros Hs. simpl.
  unfold express, post_submit_task, try_catch.
  destruct body; run_m; rewrite ?let_eta, ?_send_message_run, ?Hs; simpl;
    rewrite ?app_nil_r;
    try destruct (Nat.eqb (readyState (env s)) 3); simpl;
    repeat constructor.
Qed.

Lemma send_reliable_wire env s packet first second st :
  Forall (fun x => fst x = s)
    (snd (send_reliable_run env (Some s) packet first second st)).
Proof.
  unfold send_reliable_run, _send_message.
  destruct (Nat.eqb (readyState (env s)) 3); simpl; [constructor|].
  destruct first as [e1|]; simpl; [|repeat constructor].
  destruct second as [e2|]; simpl; repeat constructor.
Qed.

(** ** Registering the system connection *)

Lemma on_message_system_alive env socket packet st :
  is_system_alive packet = true ->
  on_message env socket (Wellformed packet) st =
  (Ok tt, state_of (system_registered socket st),
   console_log (LogValue packet) :: trace_of (system_registered socket st)).
Proof.
  intros H. unfold is_system_alive in H.
  apply andb_prop in H. destruct H as [H Hsender].
  apply andb_prop in H. destruct H as [H H3].
  apply andb_prop in H. destruct H as [H1 H2].
  apply negb_true_iff in H1, H2.
  destruct (packet_type_is_object _ _ H3) as [props ->].
  unfold on_message, try_catch. rewrite route_object. cbv zeta.
  rewrite H1, H2, H3.
  erewrite bind_ok by reflexivity.
  assert (handle_alive env socket (VObj props) st =
          system_registered socket st) as ->.
  { unfold handle_alive, system_registered. run_m.
    destruct (Obj.get "sender_id" props) as [sender|]; [|discriminate].
    rewrite Hsender. destruct (main_thread_timeout st); reflexivity. }
  unfold system_registered.
  destruct (main_thread_timeout st); reflexivity.
Qed.

Lemma run_system_alives regs : forall st env_last s_last p_last,
  forallb (fun x => is_system_alive (snd x))
    (regs ++ [(env_last, s_last, p_last)]) = true ->
  let o := run (as_messages (regs ++ [(env_last, s_last, p_last)])) st in
  mephisto_socket (fst o) = Some s_last
  /\ main_timers (snd o) = 1 - armed st
  /\ armed (fst o) = 1.
Proof.
  induction regs as [|[[env socket] p] regs IH];
    intros st env_last s_last p_last Hall; simpl in Hall;
    apply andb_prop in Hall; destruct Hall as [Hp Hall]; cbv zeta.
  - simpl. unfold handle.
    rewrite (on_message_system_alive env_last s_last p_last st Hp).
    unfold system_registered, armed.
    destruct (main_thread_timeout st) eqn:E; simpl; rewrite ?E; auto.
  - simpl. unfold handle.
    rewrite (on_message_system_alive env socket p st Hp).
    specialize (IH (state_of (system_registered socket st))
                  env_last s_last p_last Hall).
    cbv zeta in IH.
    destruct (run (as_messages (regs ++ [(env_last, s_last, p_last)]))
                (state_of (system_registered socket st))) as [st2 t2].
    simpl in *. destruct IH as [IH1 [IH2 IH3]].
    repeat split; auto.
    change (console_log (LogValue p)
            :: trace_of (system_registered socket st) ++ t2)
      with ([console_log (LogValue p)]
            ++ trace_of (system_registered socket st) ++ t2).
    rewrite !main_timers_app, IH2. unfold system_registered, armed.
    destruct (main_thread_timeout st) eqn:E; simpl; rewrite ?E; lia.
Qed.

(** C7 (amended).  After one or more registrations of the system
    connection, [mephisto_socket] is the socket of the last one.  The
    registrations hand [main_thread] to [setTimeout] once when the timer
    variable was unset and never when it was set; afterwards only the
    loop's own ticks set that timer again, at most once each, and over
    any events from any state the calls beyond one per tick number at
    most one.  Until the next registration the socket keeps the role, and
    every delivery that begins in that time goes to it: the system batch
    of a tick, a provider request, the packet of [/submit_task], and the
    retry of any of them.  A timer for a retry that is already pending
    is bound to the socket of its first attempt, and sends there whatever
    the system socket has become. *)
Theorem system_registration_idempotent st regs env_last s_last p_last :
  forallb (fun x => is_system_alive (snd x))
    (regs ++ [(env_last, s_last, p_last)]) = true ->
  let o := run (as_messages (regs ++ [(env_last, s_last, p_last)])) st in
  mephisto_socket (fst o) = Some s_last
  /\ main_timers (snd o) = 1 - armed st
  /\ main_thread_timeout (fst o) <> None
  /\ (forall evs, main_timers (snd (run evs (fst o))) <= ticks evs)
  /\ (forall evs st0,
        main_timers (snd (run evs st0)) + armed st0 <= 1 + ticks evs)
  /\ (forall evs,
        forallb (fun x => negb (is_registration (snd x))) evs = true ->
        let st1 := fst (run evs (fst o)) in
        mephisto_socket st1 = Some s_last
        /\ (forall env,
              trace_of (flush_system env st1) =
              flat_map (send_trace env (Some s_last))
                (mephisto_message_queue st1))
        /\ (forall env rand request_type provider_data res,
              trace_of (make_provider_request env rand request_type
                          provider_data res st1) =
              send_trace env (Some s_last)
                (request_packet_of (uuidv4 rand) request_type
                   provider_data))
        /\ (forall env rand r body res,
              Forall (fun x => fst x = s_last)
                (all_sends
                   (trace_of
                      (handle env (ev_post_provider rand r body res) st1))))
        /\ (forall env body files res,
              Forall (fun x => fst x = s_last)
                (all_sends
                   (trace_of
                      (handle env (ev_post_submit_task body files res)
                         st1))))
        /\ (forall env packet first second,
              Forall (fun x => fst x = s_last)
                (snd (send_reliable_run env (mephisto_socket st1) packet
                        first second st1))))
  /\ (forall env s packet st1,
        handle env (ev_timer (fn_retry s packet)) st1 =
        (Ok tt, st1, [socket_send s packet ack2])).
Proof.
  intros Hall o.
  destruct (run_system_alives regs st env_last s_last p_last Hall)
    as [Hsock [Htimers Harmed]].
  fold o in Hsock, Htimers, Harmed.
  split; [exact Hsock|]. split; [exact Htimers|].
  split; [unfold armed in Harmed; intros E; rewrite E in Harmed;
          discriminate|].
  split; [intros evs; pose proof (run_timers evs (fst o));
          pose proof (armed_le_1 (fst (run evs (fst o)))); lia|].
  split; [intros evs st0; pose proof (run_timers evs st0);
          pose proof (armed_le_1 (fst (run evs st0))); lia|].
  split; [|reflexivity].
  intros evs Hevs st1.
  assert (mephisto_socket st1 = Some s_last) as Hst1.
  { unfold st1. rewrite run_socket_kept by exact Hevs. exact Hsock. }
  split; [exact Hst1|]. split; [|split; [|split; [|split]]].
  - intros env. rewrite flush_system_run. simpl. now rewrite Hst1.
  - intros env rand request_type provider_data res.
    unfold make_provider_request. run_m. rewrite _send_message_run.
    simpl. now rewrite Hst1.
  - intros env rand r body res. now apply post_provider_sends.
  - intros env body files res. now apply post_submit_sends.
  - intros env packet first second. rewrite Hst1.
    apply send_reliable_wire.
Qed.

(** C7 (as stated) fails for a retry.  A provider request goes out on
    socket 1 and that send fails, which sets the timer of its retry; the
    system connection then registers on socket 3.  When the timer fires,
    the request, a packet addressed to the system identity, is sent on
    socket 1 again, not on the socket that now holds the role. *)
Lemma retry_goes_to_superseded_socket :
  let o := run MoreExamples.reregistered_before_retry initial_state in
  let late :=
    handle Examples.env_open
      (ev_timer (fn_retry 1 MoreExamples.agent_request)) (fst o) in
  mephisto_socket (fst o) = Some 3
  /\ snd o =
     [console_log (LogValue Examples.alive_system);
      console_log (LogText "launching main thread");
      setTimeout fn_main_thread 50;
      console_log (LogValue MoreExamples.agent_request);
      socket_send 1 MoreExamples.agent_request
        (ack 1 MoreExamples.agent_request);
      setTimeout (fn_retry 1 MoreExamples.agent_request) 500;
      console_log (LogValue Examples.alive_system)]
  /\ result_of (get_prop MoreExamples.agent_request "receiver_id"
                  initial_state) = Ok (VStr SYSTEM_SOCKET_ID)
  /\ all_sends (trace_of late) = [(1, MoreExamples.agent_request)]
  /\ ~ Forall (fun x => fst x = 3) (all_sends (trace_of late)).
Proof.
  cbv zeta.
  assert (run MoreExamples.reregistered_before_retry initial_state =
          (set_mephisto_socket (Some 3)
             (set_pending_provider_requests
                [(uuidv4 Examples.rand0, 9)] Examples.st_system),
           [console_log (LogValue Examples.alive_system);
            console_log (LogText "launching main thread");
            setTimeout fn_main_thread 50;
            console_log (LogValue MoreExamples.agent_request);
            socket_send 1 MoreExamples.agent_request
              (ack 1 MoreExamples.agent_request);
            setTimeout (fn_retry 1 MoreExamples.agent_request) 500;
            console_log (LogValue Examples.alive_system)])) as ->
    by (vm_compute; reflexivity).
  split; [reflexivity|]. split; [reflexivity|].
  split; [vm_compute; reflexivity|]. split; [reflexivity|].
  intros H. inversion H as [|x l Hx Hl]. discriminate Hx.
Qed.

(** ** A request made while no system connection exists *)

Lemma answered_app res t1 t2 :
  answered res (t1 ++ t2) = answered res t1 || answered res t2.
Proof. unfold answered. apply existsb_app. Qed.

Section Unanswered.
Variables (rid : string) (res : Response).

#[export] Instance unanswered_compositional : Compositional (unanswered rid res).
Proof.
  split; unfold unanswered.
  - intros st H. split; auto.
  - intros st t1 st1 t2 st2 H1 H2 H.
    destruct (H1 H) as [H1a H1b]. destruct (H2 H1a) as [H2a H2b].
    split; auto. rewrite answered_app, H1b, H2b. reflexivity.
Qed.

Lemma parked_after_set st rid' res' :
  Nat.eqb res' res = false ->
  parked_only_under rid res st ->
  parked_only_under rid res
    (set_pending_provider_requests
       (Obj.set rid' res' (pending_provider_requests st)) st).
Proof.
  intros Hne Hinv k. simpl. intros Hk.
  destruct (string_dec k rid') as [->|Hkne].
  - rewrite ObjFacts.get_set_same in Hk. injection Hk as ->.
    rewrite Nat.eqb_refl in Hne. discriminate.
  - rewrite ObjFacts.get_set_other in Hk by assumption. now apply Hinv.
Qed.

Lemma parked_after_delete st k' :
  parked_only_under rid res st ->
  parked_only_under rid res
    (set_pending_provider_requests
       (Obj.delete k' (pending_provider_requests st)) st).
Proof.
  intros Hinv k. simpl. intros Hk.
  destruct (string_dec k k') as [->|Hkne].
  - rewrite ObjFacts.get_delete_same in Hk. discriminate.
  - rewrite ObjFacts.get_delete_other in Hk by assumption. now apply Hinv.
Qed.

Lemma resolve_unanswered packet :
  match reply_key packet with
  | Some k => negb (String.eqb k rid)
  | None => true
  end = true ->
  respects (unanswered rid res) (resolve_provider_request packet).
Proof.
  intros Hkey st Hinv.
  destruct (reply_key packet) as [k|] eqn:Ek.
  - rewrite (resolve_provider_request_run packet k st Ek).
    destruct (Obj.get k (pending_provider_requests st)) as [r|] eqn:Er.
    + unfold state_of, trace_of. simpl. split.
      * now apply parked_after_delete.
      * destruct (Nat.eqb r res) eqn:E; [|reflexivity].
        apply Nat.eqb_eq in E. subst r.
        rewrite (Hinv k Er), String.eqb_refl in Hkey. discriminate.
    + split; auto.
  - unfold resolve_provider_request, bind.
    rewrite correlation_key_pure.
    unfold reply_key in Ek.
    destruct (result_of (correlation_key packet initial_state));
      [discriminate|].
    split; auto.
Qed.

Ltac unanswered_side :=
  unfold unanswered; intros ?;
  split;
  [ first [ assumption | apply parked_after_set; assumption ]
  | simpl;
    repeat match goal with
           | H : Nat.eqb _ _ = false |- _ => rewrite H
           end; reflexivity ].

Lemma handle_unanswered env ev :
  leaves_alone rid res ev = true ->
  respects (unanswered rid res) (handle env ev).
Proof.
  intros Halone.
  destruct ev as [socket|socket [|packet]|socket|socket err|fn|cb error
                 |rand r body res'|body files res'|res'];
    simpl in Halone; try apply negb_true_iff in Halone; simpl;
    unfold on_connection, on_message, route, on_disconnect, on_error,
      run_timer, run_callback, express, post_provider_route,
      make_provider_request, post_submit_task, get_is_alive;
    try unfold JSON_parse.
  all: respects_with ltac:(first [ apply resolve_unanswered; assumption
                                 | solve [unanswered_side] ]).
Qed.

End Unanswered.

Lemma not_parked_get res o :
  forallb (fun kv : string * Response => negb (Nat.eqb (snd kv) res)) o = true ->
  forall k, Obj.get k o <> Some res.
Proof.
  induction o as [|[k' r] o IH]; simpl; intros H k; [discriminate|].
  apply andb_prop in H. destruct H as [Hr Ho].
  destruct (String.eqb k k').
  - intros E. injection E as ->. rewrite Nat.eqb_refl in Hr. discriminate.
  - now apply IH.
Qed.

(** C10.  Let one of the four routes be called while the system socket is
    still [null].  The call returns normally and emits nothing, not even
    the console line of a send: the packet stops at the first test of
    [_send_message].  The state afterwards is the state before with the
    response parked under the new request id; the system queue is as it
    was, so a system connection registered later gets from the next tick
    what was queued before and nothing of this request.  When the
    response object was not parked before, then as long as no inbound
    packet carries that request id (none can have learnt it) and no other
    HTTP exchange owns the response object, nothing is ever written to
    the response. *)
Theorem provider_request_without_system_socket env rand r props res st :
  mephisto_socket st = None ->
  let st' :=
    set_pending_provider_requests
      (Obj.set (uuidv4 rand) res (pending_provider_requests st)) st in
  post_provider_route env rand r (VObj props) res st = (Ok tt, st', [])
  /\ handle env (ev_post_provider rand r (VObj props) res) st =
     (Ok tt, st', [])
  /\ Obj.get (uuidv4 rand) (pending_provider_requests st') = Some res
  /\ mephisto_message_queue st' = mephisto_message_queue st
  /\ (forall env' s,
        trace_of (flush_system env' (set_mephisto_socket (Some s) st')) =
        flat_map (send_trace env' (Some s)) (mephisto_message_queue st))
  /\ (forall evs,
        forallb (fun kv => negb (Nat.eqb (snd kv) res))
          (pending_provider_requests st) = true ->
        forallb (fun x => leaves_alone (uuidv4 rand) res (snd x)) evs = true ->
        answered res (snd (run evs st')) = false).
Proof.
  intros Hnull st'.
  assert (post_provider_route env rand r (VObj props) res st =
          (Ok tt, st', [])) as Hcall.
  { unfold post_provider_route, make_provider_request. run_m.
    rewrite _send_message_run, Hnull. reflexivity. }
  repeat split; auto.
  - simpl. unfold express, try_catch. now rewrite Hcall.
  - apply ObjFacts.get_set_same.
  - intros env' s. now rewrite flush_system_run.
  - intros evs Hfresh Hevs.
    assert (parked_only_under (uuidv4 rand) res st') as Hinv.
    { intros k Hk. unfold st' in Hk. simpl in Hk.
      destruct (string_dec k (uuidv4 rand)) as [->|Hne]; auto.
      rewrite ObjFacts.get_set_other in Hk by assumption.
      exfalso. eapply not_parked_get; eauto. }
    pose proof (respects_run (unanswered (uuidv4 rand) res)
                  (leaves_alone (uuidv4 rand) res)
                  (fun env ev => handle_unanswered (uuidv4 rand) res env ev)
                  evs st' Hevs) as H.
    destruct (H Hinv) as [_ Hnone]. exact Hnone.
Qed.

(** * The theorems at concrete inputs *)

(** C4 at [Examples.st_agent]: agent_1 has one packet waiting; a tick
    takes it, one new packet is pushed and the next tick sends exactly
    that packet on socket 2. *)
Lemma main_thread_delivers_queued_batch_witness :
  registry_ok Examples.st_agent = true
  /\ sends_to 2
       (trace_of
          (main_thread Examples.env_open
             (state_of
                (for_each [Examples.action_to_agent] (push_unsent (Some 0))
                   (state_of
                      (main_thread Examples.env_open Examples.st_agent))))))
     = [Examples.action_to_agent].
Proof.
  split; [reflexivity|].
  destruct (main_thread_delivers_queued_batch Examples.env_open
              Examples.env_open Examples.st_agent "agent_1" 2 0
              [Examples.action_to_agent] eq_refl eq_refl eq_refl)
    as [_ [_ [_ [_ [_ [[pre [post [Htrace Hun]]] [Hsent _]]]]]]].
  eapply eq_trans; [exact (f_equal (sends_to 2) Htrace)|].
  rewrite !sends_to_app, Hsent.
  destruct (Hun eq_refl) as [-> ->]. reflexivity.
Defined.

(** C5 at a reply for a request id nobody is waiting for. *)
Lemma unknown_reply_dereferences_undefined_witness :
  is_reply (Examples.reply "nope") = true
  /\ reply_key (Examples.reply "nope") = Some "nope"
  /\ Obj.get "nope" (pending_provider_requests Examples.st_pending) = None
  /\ resolve_provider_request (Examples.reply "nope") Examples.st_pending =
     (Throw (TypeError "Cannot read property 'json' of undefined"),
      Examples.st_pending, []).
Proof.
  split; [reflexivity|]. split; [reflexivity|]. split; [reflexivity|].
  exact (proj1 (unknown_reply_dereferences_undefined Examples.env_open 1
                  (Examples.reply "nope") "nope" Examples.st_pending
                  eq_refl eq_refl eq_refl)).
Defined.

(** C6 at a parked response that is answered three times. *)
Lemma reply_resolves_at_most_once_witness :
  Obj.get (uuidv4 Examples.rand0)
    (pending_provider_requests Examples.st_pending) = Some 9
  /\ all_responses
       (trace_of
          (on_message Examples.env_open 1
             (Wellformed (Examples.reply (uuidv4 Examples.rand0)))
             Examples.st_pending)
        ++ snd (run
                  (as_messages
                     [(Examples.env_open, 1,
                       Examples.reply (uuidv4 Examples.rand0));
                      (Examples.env_open, 3,
                       Examples.reply (uuidv4 Examples.rand0))])
                  (set_pending_provider_requests
                     (Obj.delete (uuidv4 Examples.rand0)
                        (pending_provider_requests Examples.st_pending))
                     Examples.st_pending)))
     = [(9, Examples.reply (uuidv4 Examples.rand0))].
Proof.
  split; [reflexivity|].
  apply (reply_resolves_at_most_once Examples.env_open 1
           (Examples.reply (uuidv4 Examples.rand0))
           (uuidv4 Examples.rand0) 9 Examples.st_pending
           [(Examples.env_open, 1, Examples.reply (uuidv4 Examples.rand0));
            (Examples.env_open, 3, Examples.reply (uuidv4 Examples.rand0))]);
    try reflexivity.
  repeat constructor.
Defined.

(** C7 at two registrations, from sockets 1 and 3, on a fresh server,
    followed by a status request: one timer for the loop, and the next
    tick hands what the request queued to socket 3. *)
Lemma system_registration_idempotent_witness :
  let o :=
    run (as_messages
           ([(Examples.env_open, 1, Examples.alive_system)]
            ++ [(Examples.env_open, 3, Examples.alive_system)]))
      initial_state in
  let st1 :=
    fst (run [(Examples.env_open,
               ev_message 5 (Wellformed Examples.request_status))]
           (fst o)) in
  mephisto_socket (fst o) = Some 3
  /\ main_timers (snd o) = 1
  /\ mephisto_socket st1 = Some 3
  /\ trace_of (flush_system Examples.env_open st1) =
     flat_map (send_trace Examples.env_open (Some 3))
       (mephisto_message_queue st1).
Proof.
  destruct (system_registration_idempotent initial_state
              [(Examples.env_open, 1, Examples.alive_system)]
              Examples.env_open 3 Examples.alive_system eq_refl)
    as [H1 [H2 [_ [_ [_ [H6 _]]]]]].
  destruct (H6 [(Examples.env_open,
                 ev_message 5 (Wellformed Examples.request_status))]
              eq_refl) as [H7 [H8 _]].
  split; [exact H1|]. split; [exact H2|]. split; [exact H7|].
  exact (H8 Examples.env_open).
Defined.

(** C8 at a state with one known agent. *)
Lemma request_status_snapshot_witness :
  packet_type_is Examples.request_status PACKET_TYPE_REQUEST_AGENT_STATUS
  = true
  /\ exists agent_statuses,
       mephisto_message_queue
         (state_of (on_message Examples.env_open 1
                      (Wellformed Examples.request_status)
                      Examples.st_agent)) =
       [VObj [("packet_type", VStr PACKET_TYPE_RETURN_AGENT_STATUS);
              ("sender_id", VStr SERVER_SOCKET_ID);
              ("receiver_id", VStr SYSTEM_SOCKET_ID);
              ("data", VObj agent_statuses)]]
       /\ Obj.get "agent_1" agent_statuses = Some (VStr STATUS_INIT).
Proof.
  split; [reflexivity|].
  destruct (request_status_snapshot Examples.env_open 1
              Examples.request_status Examples.st_agent eq_refl)
    as [agent_statuses [Hrun [_ Hvals]]].
  exists agent_statuses. split.
  - rewrite Hrun. reflexivity.
  - apply (Hvals "agent_1" 0). reflexivity.
Defined.

(** C9 at socket 2, open in one environment and closed in the other. *)
Lemma send_message_retries_once_witness :
  send_reliable_run Examples.env_open (Some 2) Examples.waiting
    (Some (TransportError "write EPIPE")) None initial_state =
  (initial_state,
   [console_log (LogValue Examples.waiting);
    socket_send 2 Examples.waiting (ack 2 Examples.waiting);
    setTimeout (fn_retry 2 Examples.waiting) 500;
    socket_send 2 Examples.waiting ack2],
   [(2, Examples.waiting)])
  /\ send_reliable_run Examples.env_closed2 (Some 2) Examples.waiting
       None None initial_state = (initial_state, [], []).
Proof.
  destruct (send_message_retries_once Examples.env_open Examples.env_closed2
              2 Examples.waiting (TransportError "write EPIPE")
              (TransportError "write EPIPE") None None initial_state
              eq_refl eq_refl)
    as [_ [_ [_ [Hclosed [_ [Hretry _]]]]]].
  split; [exact Hretry | exact Hclosed].
Defined.

(** C10 at a fresh server: the request is made, then the system connects,
    a tick runs and a reply for some other request arrives. *)
Lemma provider_request_without_system_socket_witness :
  mephisto_socket initial_state = None
  /\ post_provider_route Examples.env_open Examples.rand0 request_agent
       Examples.body0 9 initial_state =
     (Ok tt,
      set_pending_provider_requests [(uuidv4 Examples.rand0, 9)]
        initial_state,
      [])
  /\ answered 9
       (snd (run
               [(Examples.env_open,
                 ev_message 1 (Wellformed Examples.alive_system));
                (Examples.env_open, ev_timer fn_main_thread);
                (Examples.env_open,
                 ev_message 1 (Wellformed (Examples.reply "other")));
                (Examples.env_open, ev_get_is_alive 10)]
               (set_pending_provider_requests [(uuidv4 Examples.rand0, 9)]
                  initial_state))) = false.
Proof.
  split; [reflexivity|].
  destruct (provider_request_without_system_socket Examples.env_open
              Examples.rand0 request_agent
              [("provider_data", VObj [("a", VNum "1")])] 9 initial_state
              eq_refl)
    as [Hcall [_ [_ [_ [_ Hnone]]]]].
  split; [exact Hcall|].
  apply Hnone; reflexivity.
Defined.

(** C1 at an action for the system (the system connection is socket 1)
    and at an action for a known agent: both are dropped, and the tick
    after the first sends nothing. *)
Lemma agent_action_is_not_routed_witness :
  on_message Examples.env_open 2 (Wellformed Examples.action_to_system)
    Examples.st_system =
  (Ok tt, Examples.st_system,
   [console_log (LogValue Examples.action_to_system);
    console_log (LogText "Transient error on message");
    console_log (LogError (ReferenceError "alive_packet"))])
  /\ all_sends (trace_of (main_thread Examples.env_open Examples.st_system))
     = []
  /\ state_of (on_message Examples.env_open 1
                 (Wellformed Examples.action_to_agent) Examples.st_agent) =
     Examples.st_agent.
Proof.
  split; [|split].
  - exact (proj2 (agent_action_is_not_routed Examples.env_open 2
                    Examples.action_to_system Examples.st_system
                    eq_refl eq_refl)).
  - reflexivity.
  - pose proof (proj2 (agent_action_is_not_routed Examples.env_open 1
                         Examples.action_to_agent Examples.st_agent
                         eq_refl eq_refl)) as H.
    unfold state_of. now rewrite H.
Defined.

(** * Further properties of the server *)

(** ** Request identifiers *)

Lemma nibble_cases (n : N) :
  (n < 16)%N ->
  In n [0; 1; 2; 3; 4; 5; 6; 7; 8; 9; 10; 11; 12; 13; 14; 15]%N.
Proof.
  intros H. simpl.
  destruct (N.eq_dec n 0); [now left | right].
  destruct (N.eq_dec n 1); [now left | right].
  destruct (N.eq_dec n 2); [now left | right].
  destruct (N.eq_dec n 3); [now left | right].
  destruct (N.eq_dec n 4); [now left | right].
  destruct (N.eq_dec n 5); [now left | right].
  destruct (N.eq_dec n 6); [now left | right].
  destruct (N.eq_dec n 7); [now left | right].
  destruct (N.eq_dec n 8); [now left | right].
  destruct (N.eq_dec n 9); [now left | right].
  destruct (N.eq_dec n 10); [now left | right].
  destruct (N.eq_dec n 11); [now left | right].
  destruct (N.eq_dec n 12); [now left | right].
  destruct (N.eq_dec n 13); [now left | right].
  destruct (N.eq_dec n 14); [now left | right].
  destruct (N.eq_dec n 15); [now left | lia].
Qed.

Ltac each_nibble H :=
  simpl in H;
  repeat (destruct H as [H|H]; [subst|]); try contradiction.

Lemma is_hex_hex_digit n : (n < 16)%N -> is_hex (hex_digit n) = true.
Proof.
  intros H. apply nibble_cases in H. each_nibble H; reflexivity.
Qed.

Lemma is_variant_hex_digit n :
  is_variant (hex_digit (N.lor (N.land n 3) 8)) = true.
Proof.
  assert (forall m, (m < 4)%N -> is_variant (hex_digit (N.lor m 8)) = true)
    as Hsmall.
  { intros m Hm. assert (m < 16)%N as H16 by lia.
    apply nibble_cases in H16. each_nibble H16; try reflexivity; lia. }
  apply Hsmall. change 3%N with (N.ones 2). rewrite N.land_ones.
  apply N.mod_upper_bound. discriminate.
Qed.

Lemma hex_digit_inj n m :
  (n < 16)%N -> (m < 16)%N -> hex_digit n = hex_digit m -> n = m.
Proof.
  intros Hn Hm. apply nibble_cases in Hn. apply nibble_cases in Hm.
  each_nibble Hn; each_nibble Hm; intros E;
    first [reflexivity | discriminate E].
Qed.

Lemma uuid_replace_matches rand template :
  (forall i, (rand i < 16)%N) ->
  forall i, matches_template template (uuid_replace template rand i) = true.
Proof.
  intros Hrand. induction template as [|t template IH]; intros i; simpl.
  - reflexivity.
  - destruct (Ascii.eqb t "x") eqn:Ex; simpl.
    + rewrite ?Ex, is_hex_hex_digit by apply Hrand. apply IH.
    + destruct (Ascii.eqb t "y") eqn:Ey; simpl.
      * rewrite ?Ex, ?Ey, is_variant_hex_digit. apply IH.
      * rewrite ?Ex, ?Ey, Ascii.eqb_refl. apply IH.
Qed.

Lemma uuid_replace_length rand template :
  forall i,
    String.length (uuid_replace template rand i) = String.length template.
Proof.
  induction template as [|t template IH]; intros i; simpl; auto.
  destruct (Ascii.eqb t "x"); [|destruct (Ascii.eqb t "y")];
    simpl; now rewrite IH.
Qed.

(** X1.  Whatever the random draws (each from 0 to 15), the identifier
    [uuidv4] returns is 36 characters long and has the shape of a
    version-4 UUID: lower-case hexadecimal digits in groups of 8, 4, 4, 4
    and 12 separated by hyphens, with [4] opening the third group and one
    of 8, 9, a, b opening the fourth. *)
Theorem uuidv4_is_version_4 rand :
  (forall i, (rand i < 16)%N) ->
  matches_template "xxxxxxxx-xxxx-4xxx-yxxx-xxxxxxxxxxxx" (uuidv4 rand) = true
  /\ String.length (uuidv4 rand) = 36.
Proof.
  intros Hrand. split.
  - now apply uuid_replace_matches.
  - unfold uuidv4. now rewrite uuid_replace_length.
Qed.

Lemma string_cons_inj a b s t : String a s = String b t -> a = b /\ s = t.
Proof. intros H. injection H as -> ->. auto. Qed.

(** X2.  The identifier keeps every random draw but the sixteenth (the
    one behind [y], of which only the two low bits survive): two runs of
    [uuidv4] that return the same identifier drew the same digit at each
    of the thirty other places.  So two requests whose draws differ at
    one of these places get different request ids. *)
Theorem uuidv4_determines_draws rand1 rand2 :
  (forall i, (rand1 i < 16)%N) ->
  (forall i, (rand2 i < 16)%N) ->
  uuidv4 rand1 = uuidv4 rand2 ->
  forall i, i < 31 -> i <> 15 -> rand1 i = rand2 i.
Proof.
  intros H1 H2 E.
  unfold uuidv4 in E. cbn [uuid_replace Ascii.eqb Bool.eqb] in E.
  repeat match goal with
         | H : String _ _ = String _ _ |- _ =>
             apply string_cons_inj in H; destruct H as [? ?]
         end.
  intros i Hi Hne.
  do 31 (destruct i as [|i]; [first [lia | now apply hex_digit_inj]|]).
  lia.
Qed.

(** ** Request and reply *)

Lemma delete_set_same {V} (o : Obj.t V) k v :
  Obj.delete k (Obj.set k v o) = Obj.delete k o.
Proof.
  induction o as [|[k' v'] o IH]; simpl.
  - now rewrite String.eqb_refl.
  - destruct (String.eqb k k') eqn:E; simpl.
    + now rewrite String.eqb_refl.
    + now rewrite E, IH.
Qed.

Lemma post_provider_route_run env rand r props res st :
  post_provider_route env rand r (VObj props) res st =
  (Ok tt,
   set_pending_provider_requests
     (Obj.set (uuidv4 rand) res (pending_provider_requests st)) st,
   send_trace env (mephisto_socket st)
     (request_packet_of (uuidv4 rand) (route_request_type r)
        (match Obj.get "provider_data" props with
         | Some x => x
         | None => VUndefined
         end))).
Proof.
  unfold post_provider_route, make_provider_request. run_m.
  rewrite _send_message_run. reflexivity.
Qed.

(** X3.  A provider request followed by a reply that carries its request
    id: the reply is written, once, to the response of that request, and
    the pending table is what it was before the request, without that id.
    The request packet itself carries the id in the place a reply is
    looked up by, so a reply that copies its [data.request_id]
    correlates. *)
Theorem provider_request_round_trip env env2 rand r props res socket reply
  st :
  is_reply reply = true ->
  reply_key reply = Some (uuidv4 rand) ->
  let st1 := state_of (post_provider_route env rand r (VObj props) res st) in
  on_message env2 socket (Wellformed reply) st1 =
    (Ok tt,
     set_pending_provider_requests
       (Obj.delete (uuidv4 rand) (pending_provider_requests st)) st,
     [console_log (LogValue reply); res_json res reply])
  /\ forall provider_data,
       reply_key (request_packet_of (uuidv4 rand) (route_request_type r)
                    provider_data) = Some (uuidv4 rand).
Proof.
  intros Hreply Hkey st1. split; [|reflexivity].
  unfold st1. rewrite post_provider_route_run. unfold state_of. simpl.
  rewrite (on_message_reply env2 socket reply (uuidv4 rand) _ Hreply Hkey).
  simpl. rewrite ObjFacts.get_set_same, delete_set_same. reflexivity.
Qed.

(** ** Submitting a task *)

Lemma send_trace_undeliverable env socket packet :
  undeliverable env socket = true -> send_trace env socket packet = [].
Proof.
  unfold undeliverable, send_trace. destruct socket as [s|]; auto.
  now intros ->.
Qed.

(** X4.  [/submit_task] changes no module variable and writes exactly one
    response, the fixed body [{status: 'Submitted!'}], after handing one
    [agent_action] packet to the send primitive: its sender is the
    [USED_AGENT_ID] field of the body and its task data is the body
    without that field, every other field kept.  When there is no system
    socket, or it has closed, nothing is sent and nothing is kept for
    later, and the caller is told [Submitted!] all the same. *)
Theorem submit_task_acknowledges_even_when_lost env props files res st :
  undeliverable env (mephisto_socket st) = true ->
  let task_data := Obj.delete "USED_AGENT_ID" props in
  let submit_packet :=
    VObj [("packet_type", VStr PACKET_TYPE_AGENT_ACTION);
          ("sender_id",
           match Obj.get "USED_AGENT_ID" props with
           | Some x => x
           | None => VUndefined
           end);
          ("receiver_id", VStr SYSTEM_SOCKET_ID);
          ("data", VObj [("task_data", VObj task_data);
                         ("is_submit", VBool true);
                         ("files", files)])] in
  post_submit_task env (VObj props) files res st =
    (Ok tt, st, [res_json res (VObj [("status", VStr "Submitted!")])])
  /\ (forall env',
        post_submit_task env' (VObj props) files res st =
        (Ok tt, st,
         send_trace env' (mephisto_socket st) submit_packet
         ++ [res_json res (VObj [("status", VStr "Submitted!")])]))
  /\ Obj.get "USED_AGENT_ID" task_data = None
  /\ (forall k,
        k <> "USED_AGENT_ID" -> Obj.get k task_data = Obj.get k props).
Proof.
  intros Hlost task_data submit_packet.
  assert (forall env',
            post_submit_task env' (VObj props) files res st =
            (Ok tt, st,
             send_trace env' (mephisto_socket st) submit_packet
             ++ [res_json res (VObj [("status", VStr "Submitted!")])]))
    as Hrun.
  { intros env'. unfold post_submit_task. run_m.
    rewrite _send_message_run. reflexivity. }
  split; [|split; [exact Hrun|split]].
  - rewrite Hrun, send_trace_undeliverable by assumption. reflexivity.
  - apply ObjFacts.get_delete_same.
  - intros k Hk. now apply ObjFacts.get_delete_other.
Qed.

(** ** Frames the router does not act on *)

Lemma on_message_ok env socket raw st :
  result_of (on_message env socket raw st) = Ok tt.
Proof.
  unfold on_message, try_catch.
  destruct (route env socket raw st) as [[[[]|e] st1] t1]; reflexivity.
Qed.

Lemma run_app_messages frames rest st :
  run (as_messages frames ++ rest) st =
  (fst (run rest (fst (run (as_messages frames) st))),
   snd (run (as_messages frames) st)
   ++ snd (run rest (fst (run (as_messages frames) st)))).
Proof.
  revert st. induction frames as [|[[env socket] p] frames IH]; intros st.
  - simpl. now destruct (run rest st).
  - simpl. unfold handle.
    pose proof (on_message_ok env socket (Wellformed p) st) as Hok.
    destruct (on_message env socket (Wellformed p) st) as [[res st1] t1].
    unfold result_of in Hok. simpl in Hok. subst res.
    rewrite IH.
    destruct (run (as_messages frames) st1) as [st2 t2]. simpl.
    now rewrite app_assoc.
Qed.

(** X5.  The message handler returns normally on every frame, malformed
    ones included: whatever its body throws is caught.  So inbound frames
    never cut the event loop short: what follows a series of frames is
    handled from the state the frames leave. *)
Theorem frames_never_end_the_loop env socket raw st frames rest :
  result_of (on_message env socket raw st) = Ok tt
  /\ run (as_messages frames ++ rest) st =
     (fst (run rest (fst (run (as_messages frames) st))),
      snd (run (as_messages frames) st)
      ++ snd (run rest (fst (run (as_messages frames) st)))).
Proof.
  split; [apply on_message_ok|]. apply run_app_messages.
Qed.

(** X6.  A frame that is not JSON, or whose packet has none of the five
    types the router knows (a packet without [packet_type], [null], a
    number, a type such as [return_status]), changes no module variable,
    sends nothing and answers no HTTP response; the malformed frame is
    reported on the console as a [SyntaxError]. *)
Theorem unrouted_frame_changes_nothing env socket raw st :
  match raw with
  | Malformed => true
  | Wellformed packet => negb (known_type packet)
  end = true ->
  state_of (on_message env socket raw st) = st
  /\ all_sends (trace_of (on_message env socket raw st)) = []
  /\ all_responses (trace_of (on_message env socket raw st)) = []
  /\ on_message env socket Malformed st =
     (Ok tt, st,
      [console_log (LogText "Transient error on message");
       console_log (LogError SyntaxError)]).
Proof.
  intros H. destruct raw as [|packet].
  - repeat split.
  - apply negb_true_iff in H. unfold known_type in H.
    destruct packet as [| | | | |elems|props]; try (repeat split; fail).
    apply orb_false_iff in H. destruct H as [H H5].
    apply orb_false_iff in H. destruct H as [H H4].
    apply orb_false_iff in H. destruct H as [H H3].
    apply orb_false_iff in H. destruct H as [H1 H2].
    unfold on_message, try_catch. rewrite route_object. cbv zeta.
    rewrite H1, H2, H3, H4, H5. repeat split.
Qed.

(** ** What the WebSocket handlers never do *)

Lemma all_sends_app t1 t2 : all_sends (t1 ++ t2) = all_sends t1 ++ all_sends t2.
Proof.
  induction t1 as [|e t1 IH]; simpl; auto.
  destruct e; simpl; now rewrite ?IH.
Qed.

#[export] Instance no_sends_compositional : Compositional no_sends.
Proof.
  split; unfold no_sends.
  - reflexivity.
  - intros st t1 st1 t2 st2 H1 H2. now rewrite all_sends_app, H1, H2.
Qed.

Lemma socket_event_no_sends env ev :
  is_socket_event ev = true -> respects no_sends (handle env ev).
Proof.
  intros Hev. destruct ev; try discriminate; simpl;
    unfold on_connection, on_message, route, on_disconnect, on_error.
  all: respects_with ltac:(solve [unfold no_sends; reflexivity]).
Qed.

(** X7.  Nothing is sent on any socket while a connection, a frame, a
    disconnect or a socket error is handled, whatever the frame says:
    routing only queues.  Sends happen in the tick, in its retry timer and
    in the HTTP routes. *)
Theorem socket_events_never_send evs st :
  forallb (fun x => is_socket_event (snd x)) evs = true ->
  all_sends (snd (run evs st)) = [].
Proof.
  intros Hevs.
  exact (respects_run no_sends is_socket_event socket_event_no_sends
           evs st Hevs).
Qed.

(** ** A tick that meets an agent without a record *)

Lemma bind_throws {A B} (m : M A) (k : A -> M B) st e st1 t1 :
  m st = (Throw e, st1, t1) -> bind m k st = (Throw e, st1, t1).
Proof. intros H. unfold bind. now rewrite H. Qed.

Lemma flush_agent_missing env k st :
  Obj.get k (agent_id_to_agent st) = None ->
  flush_agent env k st =
  (Throw (TypeError
            "Cannot read property 'get_sendable_messages' of undefined"),
   st, []).
Proof. intros H. unfold flush_agent. run_m. now rewrite H. Qed.

Lemma only_logs_and_sends_batch env st k :
  only_logs_and_sends (batch_of env st k) = true.
Proof.
  unfold batch_of.
  destruct (Obj.get k (agent_id_to_agent st)) as [r|]; [|reflexivity].
  induction (unsent_messages (heap st r)) as [|p q IH]; [reflexivity|].
  simpl. unfold only_logs_and_sends in *. rewrite forallb_app, IH.
  unfold send_trace.
  destruct (Obj.get k (agent_id_to_socket st)) as [s|]; [|reflexivity].
  destruct (Nat.eqb (readyState (env s)) 3); reflexivity.
Qed.

Lemma flush_agents_missing env ks : forall st k,
  In k ks ->
  Obj.get k (agent_id_to_agent st) = None ->
  exists st' t,
    for_each ks (flush_agent env) st =
    (Throw (TypeError
              "Cannot read property 'get_sendable_messages' of undefined"),
     st', t)
    /\ mephisto_message_queue st' = mephisto_message_queue st
    /\ main_thread_timeout st' = main_thread_timeout st
    /\ only_logs_and_sends t = true.
Proof.
  induction ks as [|k0 ks IH]; intros st k Hin Hnone; [contradiction|].
  simpl.
  destruct (Obj.get k0 (agent_id_to_agent st)) as [r|] eqn:E0.
  - assert (In k ks) as Hin'.
    { destruct Hin as [->|Hin]; [congruence|assumption]. }
    destruct (IH (set_heap (heap_write r (emptied (heap st r)) (heap st)) st)
                k Hin' Hnone) as [st' [t [Hrun [Hq [Ht Hl]]]]].
    exists st', (batch_of env st k0 ++ t).
    erewrite bind_ok by (apply flush_agent_run; eauto).
    rewrite Hrun. repeat split; auto.
    unfold only_logs_and_sends in *.
    rewrite forallb_app, Hl. rewrite andb_true_r.
    apply only_logs_and_sends_batch.
  - exists st, []. erewrite bind_throws by (apply flush_agent_missing; auto).
    repeat split.
Qed.

(** X8.  When some agent id has a socket but no record, the tick throws a
    [TypeError] in the agent loop.  It then neither drains the system
    queue nor sets its timer again nor touches the timer variable: the
    trace holds console lines and sends only.  Nothing catches the
    exception, so no later event is handled. *)
Theorem main_thread_stops_on_missing_record env st k rest :
  In k (Obj.keys (agent_id_to_socket st)) ->
  Obj.get k (agent_id_to_agent st) = None ->
  result_of (main_thread env st) =
    Throw (TypeError
             "Cannot read property 'get_sendable_messages' of undefined")
  /\ mephisto_message_queue (state_of (main_thread env st)) =
     mephisto_message_queue st
  /\ main_thread_timeout (state_of (main_thread env st)) =
     main_thread_timeout st
  /\ only_logs_and_sends (trace_of (main_thread env st)) = true
  /\ run ((env, ev_timer fn_main_thread) :: rest) st =
     (state_of (main_thread env st), trace_of (main_thread env st)).
Proof.
  intros Hin Hnone.
  destruct (flush_agents_missing env _ st k Hin Hnone)
    as [st' [t [Hrun [Hq [Ht Hl]]]]].
  assert (main_thread env st =
          (Throw (TypeError
                    "Cannot read property 'get_sendable_messages' of undefined"),
           st', t)) as Hmain.
  { unfold main_thread. apply bind_throws.
    unfold flush_agents. unfold bind at 1. unfold gets at 1.
    rewrite Hrun. now rewrite app_nil_l. }
  simpl run. rewrite Hmain. repeat split; auto.
Qed.

(** ** Ticks, closed sockets and empty queues *)

Lemma sends_to_closed env s socket q :
  Nat.eqb (readyState (env s)) 3 = true ->
  sends_to s (flat_map (send_trace env socket) q) = [].
Proof.
  intros Hclosed. destruct socket as [s'|].
  - rewrite sends_to_batch.
    destruct (Nat.eqb s' s) eqn:E; [|reflexivity].
    apply Nat.eqb_eq in E. subst s'. now rewrite Hclosed.
  - apply sends_to_batch_none.
Qed.

Lemma sends_to_batches_closed env st s ks :
  Nat.eqb (readyState (env s)) 3 = true ->
  sends_to s (flat_map (batch_of env st) ks) = [].
Proof.
  intros Hclosed. induction ks as [|k ks IH]; simpl; [reflexivity|].
  rewrite sends_to_app, IH, app_nil_r. unfold batch_of.
  destruct (Obj.get k (agent_id_to_agent st)); [|reflexivity].
  now apply sends_to_closed.
Qed.

Lemma batches_empty_after_clear env st rs ks : forall rs0,
  refs_of (agent_id_to_agent st) ks = Some rs0 ->
  (forall r, In r rs0 -> In r rs) ->
  flat_map
    (batch_of env
       (set_main_thread_timeout (Some (mkTimeout fn_main_thread 50))
          (set_mephisto_message_queue []
             (set_heap (clear_all rs (heap st)) st)))) ks = [].
Proof.
  induction ks as [|k ks IH]; intros rs0 Hrs Hsub; [reflexivity|].
  simpl in Hrs.
  destruct (Obj.get k (agent_id_to_agent st)) as [r|] eqn:Ek; [|discriminate].
  destruct (refs_of (agent_id_to_agent st) ks) as [rs1|] eqn:Eks;
    [|discriminate].
  injection Hrs as <-. simpl.
  rewrite (IH rs1 eq_refl) by (intros r' H; apply Hsub; now right).
  rewrite app_nil_r. unfold batch_of. simpl. rewrite Ek.
  rewrite clear_all_in by (apply Hsub; now left). reflexivity.
Qed.

(** X9.  A tick empties the system queue whether or not the packets can
    go out.  When there is no system socket, or it has closed, the tick
    sends the agent batches and sets its timer, the queued packets are
    gone, and a system connection that registers afterwards gets none of
    them from the next flush. *)
Theorem tick_drops_system_queue_without_socket env st :
  registry_ok st = true ->
  undeliverable env (mephisto_socket st) = true ->
  result_of (main_thread env st) = Ok tt
  /\ mephisto_message_queue (state_of (main_thread env st)) = []
  /\ trace_of (main_thread env st) =
     flat_map (batch_of env st) (Obj.keys (agent_id_to_socket st))
     ++ [setTimeout fn_main_thread 50]
  /\ forall env' s,
       trace_of (flush_system env'
                   (set_mephisto_socket (Some s)
                      (state_of (main_thread env st)))) = [].
Proof.
  intros Hok Hlost.
  destruct (registry_ok_refs st Hok) as [rs [Hrs Hd]].
  rewrite (main_thread_run env st rs Hrs Hd).
  unfold result_of, state_of, trace_of. simpl.
  repeat split.
  - f_equal.
    assert (flat_map (send_trace env (mephisto_socket st))
              (mephisto_message_queue st) = []) as ->; [|reflexivity].
    induction (mephisto_message_queue st) as [|p q IH]; [reflexivity|].
    simpl. now rewrite IH, send_trace_undeliverable.
Qed.

(** X10.  A tick that follows a tick with nothing queued in between sends
    nothing: it only sets its timer again. *)
Theorem second_tick_is_silent env1 env2 st :
  registry_ok st = true ->
  result_of (main_thread env2 (state_of (main_thread env1 st))) = Ok tt
  /\ trace_of (main_thread env2 (state_of (main_thread env1 st))) =
     [setTimeout fn_main_thread 50].
Proof.
  intros Hok. destruct (registry_ok_refs st Hok) as [rs [Hrs Hd]].
  rewrite (main_thread_run env1 st rs Hrs Hd). unfold state_of. simpl.
  set (st1 := set_main_thread_timeout (Some (mkTimeout fn_main_thread 50))
                (set_mephisto_message_queue []
                   (set_heap (clear_all rs (heap st)) st))).
  assert (refs_of (agent_id_to_agent st1) (Obj.keys (agent_id_to_socket st1))
          = Some rs) as Hrs1 by exact Hrs.
  rewrite (main_thread_run env2 st1 rs Hrs1 Hd).
  unfold result_of, trace_of. simpl. split; [reflexivity|].
  unfold st1 at 1.
  rewrite (batches_empty_after_clear env2 st rs _ rs Hrs (fun r H => H)).
  reflexivity.
Qed.

(** X11.  A disconnect is logged and changes no module variable: the
    agent stays known and keeps its socket and its queue.  The next tick
    then takes the queue of every agent bound to the closed socket and
    sends none of it, for that socket has closed: what was queued for
    the agent is lost, not kept for a reconnect. *)
Theorem disconnect_then_tick_loses_queue env0 env st s :
  registry_ok st = true ->
  Nat.eqb (readyState (env s)) 3 = true ->
  on_disconnect env0 s st = (Ok tt, st, [console_log (LogText "disconnected")])
  /\ result_of (main_thread env st) = Ok tt
  /\ sends_to s (trace_of (main_thread env st)) = []
  /\ forall a r,
       Obj.get a (agent_id_to_socket st) = Some s ->
       Obj.get a (agent_id_to_agent st) = Some r ->
       unsent_messages (heap (state_of (main_thread env st)) r) = [].
Proof.
  intros Hok Hclosed.
  destruct (registry_ok_refs st Hok) as [rs [Hrs Hd]].
  rewrite (main_thread_run env st rs Hrs Hd).
  unfold result_of, state_of, trace_of. simpl.
  split; [reflexivity|]. split; [reflexivity|]. split.
  - rewrite !sends_to_app, sends_to_batches_closed, sends_to_closed
      by assumption.
    reflexivity.
  - intros a r Ha Hr. apply clear_all_in.
    eapply refs_of_in; eauto. eapply ObjFacts.get_some_in_keys; eauto.
Qed.

(** ** From a status request to the system socket *)

Lemma on_message_request_status env socket packet st :
  packet_type_is packet PACKET_TYPE_REQUEST_AGENT_STATUS = true ->
  exists agent_statuses,
    on_message env socket (Wellformed packet) st =
    (Ok tt,
     set_mephisto_message_queue
       (mephisto_message_queue st
        ++ [VObj [("packet_type", VStr PACKET_TYPE_RETURN_AGENT_STATUS);
                  ("sender_id", VStr SERVER_SOCKET_ID);
                  ("receiver_id", VStr SYSTEM_SOCKET_ID);
                  ("data", VObj agent_statuses)]]) st,
     [console_log (LogValue packet)])
    /\ forall k,
         In k (Obj.keys agent_statuses) <->
         In k (Obj.keys (agent_id_to_agent st)).
Proof.
  intros Htype. destruct (packet_type_is_object _ _ Htype) as [props ->].
  destruct (statuses_loop st (Obj.keys (agent_id_to_agent st)) Obj.empty)
    as [out [Hrun [Hkeys _]]].
  { intros k Hk. now apply ObjFacts.in_keys_get_some. }
  exists out. split.
  - unfold on_message, try_catch. rewrite route_object. cbv zeta.
    rewrite Htype.
    erewrite bind_ok by reflexivity.
    unfold handle_get_agent_status.
    erewrite bind_ok by reflexivity.
    erewrite bind_ok by exact Hrun.
    reflexivity.
  - intros k. rewrite ObjFacts.in_keys, Hkeys. simpl. tauto.
Qed.

Lemma all_sends_open env s q :
  Nat.eqb (readyState (env s)) 3 = false ->
  all_sends (flat_map (send_trace env (Some s)) q) = map (pair s) q.
Proof.
  intros Hopen. induction q as [|p q IH]; simpl; [reflexivity|].
  rewrite all_sends_app, IH. simpl. now rewrite Hopen.
Qed.

(** X12.  A status request and the tick after it, with an open system
    socket: the last frames the tick sends are, on the system socket and
    in this order, the packets that were already waiting in the system
    queue and then the snapshot, whose keys are the known agent ids. *)
Theorem status_request_reaches_system_socket env1 env2 socket packet s st :
  packet_type_is packet PACKET_TYPE_REQUEST_AGENT_STATUS = true ->
  registry_ok st = true ->
  mephisto_socket st = Some s ->
  Nat.eqb (readyState (env2 s)) 3 = false ->
  exists agent_statuses pre,
    all_sends
      (trace_of
         (main_thread env2
            (state_of (on_message env1 socket (Wellformed packet) st)))) =
    pre
    ++ map (pair s)
         (mephisto_message_queue st
          ++ [VObj [("packet_type", VStr PACKET_TYPE_RETURN_AGENT_STATUS);
                    ("sender_id", VStr SERVER_SOCKET_ID);
                    ("receiver_id", VStr SYSTEM_SOCKET_ID);
                    ("data", VObj agent_statuses)]])
    /\ forall k,
         In k (Obj.keys agent_statuses) <->
         In k (Obj.keys (agent_id_to_agent st)).
Proof.
  intros Htype Hok Hsock Hopen.
  destruct (on_message_request_status env1 socket packet st Htype)
    as [agent_statuses [Hrun Hkeys]].
  destruct (registry_ok_refs st Hok) as [rs [Hrs Hd]].
  exists agent_statuses. eexists. split; [|exact Hkeys].
  rewrite Hrun. unfold state_of. simpl.
  match goal with
  | |- context [main_thread env2 ?st1] =>
      assert (refs_of (agent_id_to_agent st1)
                (Obj.keys (agent_id_to_socket st1)) = Some rs) as Hrs1
        by exact Hrs;
      rewrite (main_thread_run env2 st1 rs Hrs1 Hd)
  end.
  unfold trace_of. simpl.
  rewrite !all_sends_app. simpl. rewrite app_nil_r, Hsock.
  rewrite all_sends_open by assumption. reflexivity.
Qed.

(** ** The correlation key of a reply *)

(** X13.  A reply whose [data] is an object without [request_id] is
    looked up under its [receiver_id]: when a response is parked under
    that name, the reply is written to it and the entry is removed. *)
Theorem reply_falls_back_to_receiver_id env socket props dprops receiver_id
  res st :
  is_reply (VObj props) = true ->
  Obj.get "data" props = Some (VObj dprops) ->
  Obj.get "request_id" dprops = None ->
  Obj.get "receiver_id" props = Some receiver_id ->
  Obj.get (to_string receiver_id) (pending_provider_requests st) = Some res ->
  reply_key (VObj props) = Some (to_string receiver_id)
  /\ on_message env socket (Wellformed (VObj props)) st =
     (Ok tt,
      set_pending_provider_requests
        (Obj.delete (to_string receiver_id) (pending_provider_requests st))
        st,
      [console_log (LogValue (VObj props)); res_json res (VObj props)]).
Proof.
  intros Hreply Hdata Hid Hrcv Hres.
  assert (reply_key (VObj props) = Some (to_string receiver_id)) as Hkey.
  { unfold reply_key, correlation_key. run_m.
    rewrite Hdata. simpl. rewrite Hid. simpl. now rewrite Hrcv. }
  split; [exact Hkey|].
  rewrite (on_message_reply env socket (VObj props) _ st Hreply Hkey).
  now rewrite Hres.
Qed.

(** X14.  A reply that has no [data] at all is never looked up, not even
    under its [receiver_id]: reading [request_id] throws a [TypeError],
    the message handler logs it, and no module variable changes, so a
    response parked under that receiver id stays parked. *)
Theorem reply_without_data_is_dropped env socket props st :
  is_reply (VObj props) = true ->
  Obj.get "data" props = None ->
  reply_key (VObj props) = None
  /\ on_message env socket (Wellformed (VObj props)) st =
     (Ok tt, st,
      [console_log (LogValue (VObj props));
       console_log (LogText "Transient error on message");
       console_log
         (LogError
            (TypeError "Cannot read property 'request_id' of undefined"))]).
Proof.
  intros Hreply Hdata.
  assert (result_of (correlation_key (VObj props) initial_state) =
          Throw (TypeError "Cannot read property 'request_id' of undefined"))
    as Hthrow.
  { unfold correlation_key. run_m. now rewrite Hdata. }
  split.
  - unfold reply_key. now rewrite Hthrow.
  - assert (resolve_provider_request (VObj props) st =
            (Throw
               (TypeError "Cannot read property 'request_id' of undefined"),
             st, [])) as Hres.
    { unfold resolve_provider_request. apply bind_throws.
      now rewrite correlation_key_pure, Hthrow. }
    unfold on_message, try_catch. rewrite route_reply by assumption.
    erewrite bind_ok by reflexivity. rewrite Hres. reflexivity.
Qed.

(** ** What no event changes *)

#[export] Instance records_kept_compositional : Compositional records_kept.
Proof.
  split; unfold records_kept.
  - intros st r. auto.
  - intros st t1 st1 t2 st2 H1 H2 r.
    destruct (H1 r) as [A1 A2]. destruct (H2 r) as [B1 B2].
    split; congruence.
Qed.

Ltac records_side :=
  unfold records_kept; intros ?r; simpl; unfold heap_write;
  try match goal with
      | |- context [Nat.eqb ?a ?b] =>
          let E := fresh "E" in
          destruct (Nat.eqb a b) eqn:E;
          [apply Nat.eqb_eq in E; subst|]
      end;
  simpl; auto.

Lemma handle_records_kept env ev : respects records_kept (handle env ev).
Proof.
  destruct ev; simpl;
    unfold on_connection, on_message, route, on_disconnect, on_error,
      run_timer, run_callback, express, post_provider_route,
      make_provider_request, post_submit_task, get_is_alive.
  all: respects_with ltac:(solve [records_side]).
Qed.

(** X15.  No event, and so no sequence of events, changes the status or
    the agent id of an agent record: the tick and the forwarding code
    write the queue of a record and nothing else of it.  A status stays
    what it was when the record was made. *)
Theorem status_never_changes evs st r :
  status (heap (fst (run evs st)) r) = status (heap st r)
  /\ agent_id (heap (fst (run evs st)) r) = agent_id (heap st r).
Proof.
  assert (forallb (fun x : SocketEnv * event => true) evs = true) as Hall
    by (induction evs; auto).
  exact (respects_run records_kept (fun _ => true)
           (fun env ev _ => handle_records_kept env ev) evs st Hall r).
Qed.

Section EntryKept.
Variables (rid : string) (res : Response).

#[export] Instance entry_kept_compositional : Compositional (entry_kept rid res).
Proof.
  split; unfold entry_kept; auto.
Qed.

Lemma resolve_entry_kept packet :
  match reply_key packet with
  | Some k => negb (String.eqb k rid)
  | None => true
  end = true ->
  respects (entry_kept rid res) (resolve_provider_request packet).
Proof.
  intros Hkey st Hparked.
  destruct (reply_key packet) as [k|] eqn:Ek.
  - rewrite (resolve_provider_request_run packet k st Ek).
    destruct (Obj.get k (pending_provider_requests st)); [|exact Hparked].
    unfold state_of. simpl.
    rewrite ObjFacts.get_delete_other; [exact Hparked|].
    intros ->. rewrite String.eqb_refl in Hkey. discriminate.
  - unfold resolve_provider_request, bind. rewrite correlation_key_pure.
    unfold reply_key in Ek.
    destruct (result_of (correlation_key packet initial_state));
      [discriminate|exact Hparked].
Qed.

Ltac entry_side :=
  match goal with |- entry_kept _ _ _ _ _ => idtac end;
  unfold entry_kept; simpl; intros;
  first
    [ assumption
    | rewrite ObjFacts.get_set_other;
      [ assumption
      | let E := fresh "E" in
        intros E;
        match goal with
        | H : String.eqb _ _ = false |- _ =>
            rewrite E, String.eqb_refl in H; discriminate H
        end ] ].

Lemma post_provider_entry_kept env rand r body res' :
  keeps_entry rid (ev_post_provider rand r body res') = true ->
  respects (entry_kept rid res)
    (handle env (ev_post_provider rand r body res')).
Proof.
  unfold keeps_entry, handle, express, post_provider_route,
    make_provider_request.
  generalize (uuidv4 rand). intros request_id Hkeeps.
  apply negb_true_iff in Hkeeps.
  respects_with ltac:(solve [entry_side]).
Qed.

Lemma handle_entry_kept env ev :
  keeps_entry rid ev = true ->
  respects (entry_kept rid res) (handle env ev).
Proof.
  intros Hkeeps.
  destruct ev as [socket|socket [|packet]|socket|socket err|fn|cb error
                 |rand r body res'|body files res'|res'];
    try (apply post_provider_entry_kept; exact Hkeeps);
    cbv beta iota delta [keeps_entry] in Hkeeps; simpl;
    unfold on_connection, on_message, route, on_disconnect, on_error,
      run_timer, run_callback, express, post_submit_task, get_is_alive;
    try unfold JSON_parse.
  all: respects_with
         ltac:(first [ match goal with
                       | |- respects _ (resolve_provider_request _) =>
                           apply resolve_entry_kept; assumption
                       end
                     | solve [entry_side] ]).
Qed.

End EntryKept.

(** X16.  A parked response has no expiry: as long as no reply with its
    request id arrives and no later request draws the same id, it is
    still parked under that id after any sequence of events, ticks and
    reconnections of the system included. *)
Theorem pending_entry_never_expires rid res evs st :
  forallb (fun x => keeps_entry rid (snd x)) evs = true ->
  Obj.get rid (pending_provider_requests st) = Some res ->
  Obj.get rid (pending_provider_requests (fst (run evs st))) = Some res.
Proof.
  intros Hevs.
  exact (respects_run (entry_kept rid res) (keeps_entry rid)
           (fun env ev => handle_entry_kept rid res env ev) evs st Hevs).
Qed.

(** ** A whole tick *)

(** X21.  What one tick does when the registry is in order.  It ends
    normally.  It first hands to the send primitive, agent by agent in
    the order the socket map is enumerated, each agent's queued packets
    in their order, then the packets of the system queue in their order
    for the system socket, and last it sets its 50 ms timer.  Afterwards
    the system queue and the queue of every agent with a socket are
    empty, the timer variable is set and the maps are what they were. *)
Theorem tick_sends_agents_then_system env st :
  registry_ok st = true ->
  let st' := state_of (main_thread env st) in
  result_of (main_thread env st) = Ok tt
  /\ trace_of (main_thread env st) =
     flat_map (batch_of env st) (Obj.keys (agent_id_to_socket st))
     ++ flat_map (send_trace env (mephisto_socket st))
          (mephisto_message_queue st)
     ++ [setTimeout fn_main_thread 50]
  /\ mephisto_message_queue st' = []
  /\ main_thread_timeout st' = Some (mkTimeout fn_main_thread 50)
  /\ (forall a r,
        In a (Obj.keys (agent_id_to_socket st)) ->
        Obj.get a (agent_id_to_agent st) = Some r ->
        unsent_messages (heap st' r) = [])
  /\ agent_id_to_socket st' = agent_id_to_socket st
  /\ agent_id_to_agent st' = agent_id_to_agent st
  /\ mephisto_socket st' = mephisto_socket st
  /\ pending_provider_requests st' = pending_provider_requests st.
Proof.
  intros Hok. destruct (registry_ok_refs st Hok) as [rs [Hrs Hd]].
  cbv zeta. rewrite (main_thread_run env st rs Hrs Hd).
  unfold result_of, state_of, trace_of. simpl.
  repeat split.
  intros a r Hin Hr. apply clear_all_in. eapply refs_of_in; eauto.
Qed.

(** * Properties of the review hook *)

(** X17.  How the effect of the hook ends, for each outcome of its
    [fetch].  A body that parses becomes the data and the error cell is
    left alone.  A body that does not parse is recorded as [DATA_PARSE].
    A failed [fetch] is recorded as [DATA_PARSE] too: the first [catch]
    records [DATA_RETRIEVAL] and passes [undefined] on, calling [json] on
    it throws, and the last [catch] overwrites the record, so neither
    the type [DATA_RETRIEVAL] nor the reason of the failure is what the
    hook ends up reporting.  In the two failure cases the data shown
    before stays. *)
Theorem effect_outcomes outcome st :
  Hook.effect outcome st =
  (Hook.Fulfilled tt,
   match outcome with
   | Hook.Fulfilled (Wellformed v) =>
       Hook.mkState v (Hook.counter st) (Hook.error st)
   | Hook.Fulfilled Malformed =>
       Hook.mkState (Hook.data st) (Hook.counter st)
         (Some (Hook.HookError "DATA_PARSE" SyntaxError))
   | Hook.Rejected reason =>
       Hook.mkState (Hook.data st) (Hook.counter st)
         (Some (Hook.HookError "DATA_PARSE"
                  (TypeError "Cannot read property 'json' of undefined")))
   end).
Proof. destruct outcome as [[|v]|reason]; reflexivity. Qed.

(** X18.  What the hook shows after a fetch whose body parsed.  For an
    object body it is not loading and shows the body's [data] and
    [finished] fields ([undefined] for a missing one).  For the bodies
    [null], [false], [0] and the empty string it keeps saying that it is
    loading, and shows that body as data and as finished flag. *)
Theorem view_after_fetch props v st :
  let shown body :=
    Hook.useMephistoReview
      (snd (Hook.effect (Hook.Fulfilled (Wellformed body)) st)) in
  Hook.View.isLoading (shown (VObj props)) = false
  /\ Hook.View.data (shown (VObj props)) =
     match Obj.get "data" props with Some x => x | None => VUndefined end
  /\ Hook.View.isFinished (shown (VObj props)) =
     match Obj.get "finished" props with Some x => x | None => VUndefined end
  /\ Hook.View.isLoading (shown v) = Hook.falsy v
  /\ (if Hook.falsy v
      then Hook.View.data (shown v) = v /\ Hook.View.isFinished (shown v) = v
      else True)
  /\ Hook.View.error (shown v) = Hook.error st.
Proof.
  cbv beta zeta. rewrite !effect_outcomes. simpl.
  repeat split.
  unfold Hook.and_prop. destruct (Hook.falsy v); auto.
Qed.

(** X19.  A [submit] closure sets the counter to one more than the
    counter of the render that built it, whether its POST succeeded or
    failed; a failure is recorded as [RESPONSE_SUBMIT] first.  The
    counter therefore differs from the one that render saw, which is what
    makes the effect fetch again.  Two calls of the same closure leave
    the counter one higher, not two. *)
Theorem submit_sets_counter outcome outcome' st :
  let c := Hook.counter st in
  let st1 := snd (Hook.submitData c outcome st) in
  let st2 := snd (Hook.submitData c outcome' st1) in
  Hook.counter st1 = c + 1
  /\ Hook.counter st1 <> c
  /\ Hook.data st1 = Hook.data st
  /\ Hook.error st1 =
     match outcome with
     | Hook.Fulfilled _ => Hook.error st
     | Hook.Rejected reason =>
         Some (Hook.HookError "RESPONSE_SUBMIT" reason)
     end
  /\ Hook.counter st2 = c + 1.
Proof.
  cbv zeta. destruct outcome, outcome'; simpl; repeat split; lia.
Qed.

Lemma settle_keeps_error s st :
  Hook.error st <> None -> Hook.error (Hook.settle s st) <> None.
Proof.
  intros H. destruct s as [outcome|c outcome]; simpl.
  - rewrite effect_outcomes. simpl.
    destruct outcome as [[|v]|reason]; simpl; auto; discriminate.
  - destruct outcome; simpl; auto; discriminate.
Qed.

(** X20.  Nothing clears the error cell: once an error is recorded, it is
    still reported after any number of effects and submits, successful
    ones included. *)
Theorem error_is_never_cleared l st :
  Hook.error st <> None ->
  Hook.error (Hook.settle_all l st) <> None
  /\ Hook.View.error (Hook.useMephistoReview (Hook.settle_all l st)) <> None.
Proof.
  revert st. induction l as [|s l IH]; intros st H.
  - split; exact H.
  - simpl. apply IH. now apply settle_keeps_error.
Qed.

(** * The further properties at concrete inputs *)

(** X1 at the draws that are all 5. *)
Lemma uuidv4_is_version_4_witness :
  uuidv4 Examples.rand0 = "55555555-5555-4555-9555-555555555555"
  /\ String.length (uuidv4 Examples.rand0) = 36.
Proof.
  split; [reflexivity|].
  exact (proj2 (uuidv4_is_version_4 Examples.rand0 (fun i => eq_refl))).
Defined.

(** X2 at two series of draws that give the same identifier: they agree
    at the fourth place. *)
Lemma uuidv4_determines_draws_witness :
  uuidv4 Examples.rand0 = uuidv4 MoreExamples.rand1
  /\ Examples.rand0 3 = MoreExamples.rand1 3.
Proof.
  assert (uuidv4 Examples.rand0 = uuidv4 MoreExamples.rand1) as E
    by (vm_compute; reflexivity).
  split; [exact E|].
  apply (uuidv4_determines_draws Examples.rand0 MoreExamples.rand1).
  - intros i. reflexivity.
  - intros i. unfold MoreExamples.rand1. destruct (Nat.eqb i 15); reflexivity.
  - exact E.
  - lia.
  - lia.
Defined.

(** X3 at a request made with the system connected, then answered. *)
Lemma provider_request_round_trip_witness :
  all_responses
    (trace_of
       (on_message Examples.env_open 1
          (Wellformed (Examples.reply (uuidv4 Examples.rand0)))
          (state_of
             (post_provider_route Examples.env_open Examples.rand0
                request_agent
                (VObj [("provider_data", VObj [("a", VNum "1")])]) 9
                Examples.st_system)))) =
  [(9, Examples.reply (uuidv4 Examples.rand0))].
Proof.
  assert (reply_key (Examples.reply (uuidv4 Examples.rand0)) =
          Some (uuidv4 Examples.rand0)) as Hkey
    by (vm_compute; reflexivity).
  destruct (provider_request_round_trip Examples.env_open Examples.env_open
              Examples.rand0 request_agent
              [("provider_data", VObj [("a", VNum "1")])] 9 1
              (Examples.reply (uuidv4 Examples.rand0)) Examples.st_system
              eq_refl Hkey) as [H _].
  unfold trace_of. now rewrite H.
Defined.

(** X4 at a submission made before any system connection. *)
Lemma submit_task_acknowledges_even_when_lost_witness :
  undeliverable Examples.env_open (mephisto_socket initial_state) = true
  /\ post_submit_task Examples.env_open
       (VObj [("USED_AGENT_ID", VStr "agent_1"); ("answer", VStr "yes")])
       (VArr []) 12 initial_state =
     (Ok tt, initial_state,
      [res_json 12 (VObj [("status", VStr "Submitted!")])]).
Proof.
  split; [reflexivity|].
  exact (proj1 (submit_task_acknowledges_even_when_lost Examples.env_open
                  [("USED_AGENT_ID", VStr "agent_1"); ("answer", VStr "yes")]
                  (VArr []) 12 initial_state eq_refl)).
Defined.

(** X6 at a packet of type [return_status]. *)
Lemma unrouted_frame_changes_nothing_witness :
  known_type MoreExamples.returned_status = false
  /\ state_of (on_message Examples.env_open 1
                 (Wellformed MoreExamples.returned_status) Examples.st_agent)
     = Examples.st_agent.
Proof.
  split; [reflexivity|].
  exact (proj1 (unrouted_frame_changes_nothing Examples.env_open 1
                  (Wellformed MoreExamples.returned_status) Examples.st_agent
                  eq_refl)).
Defined.

(** X7 at a connection, two frames and a disconnect. *)
Lemma socket_events_never_send_witness :
  all_sends
    (snd (run [(Examples.env_open, ev_connection 1);
               (Examples.env_open,
                ev_message 1 (Wellformed Examples.alive_system));
               (Examples.env_open,
                ev_message 1 (Wellformed Examples.request_status));
               (Examples.env_open, ev_disconnect 1)]
            Examples.st_agent)) = [].
Proof.
  apply socket_events_never_send. reflexivity.
Defined.

(** X8 at an agent id with a socket and no record. *)
Lemma main_thread_stops_on_missing_record_witness :
  In "ghost" (Obj.keys (agent_id_to_socket MoreExamples.st_orphan))
  /\ run [(Examples.env_open, ev_timer fn_main_thread);
          (Examples.env_open,
           ev_message 1 (Wellformed Examples.request_status))]
       MoreExamples.st_orphan =
     (MoreExamples.st_orphan, []).
Proof.
  split; [now left|].
  destruct (main_thread_stops_on_missing_record Examples.env_open
              MoreExamples.st_orphan "ghost"
              [(Examples.env_open,
                ev_message 1 (Wellformed Examples.request_status))]
              (or_introl eq_refl) eq_refl) as [_ [_ [_ [_ H]]]].
  exact H.
Defined.

(** X9 at a queued packet and no system connection. *)
Lemma tick_drops_system_queue_without_socket_witness :
  mephisto_message_queue MoreExamples.st_queued = [Examples.request_status]
  /\ mephisto_message_queue
       (state_of (main_thread Examples.env_open MoreExamples.st_queued)) = []
  /\ trace_of (main_thread Examples.env_open MoreExamples.st_queued) =
     [setTimeout fn_main_thread 50].
Proof.
  split; [reflexivity|].
  destruct (tick_drops_system_queue_without_socket Examples.env_open
              MoreExamples.st_queued eq_refl eq_refl) as [_ [H1 [H2 _]]].
  split; [exact H1 | exact H2].
Defined.

(** X10 at the state with one agent and one waiting packet. *)
Lemma second_tick_is_silent_witness :
  trace_of
    (main_thread Examples.env_open
       (state_of (main_thread Examples.env_open Examples.st_agent))) =
  [setTimeout fn_main_thread 50].
Proof.
  exact (proj2 (second_tick_is_silent Examples.env_open Examples.env_open
                  Examples.st_agent eq_refl)).
Defined.

(** X11 at agent_1, whose socket 2 has closed. *)
Lemma disconnect_then_tick_loses_queue_witness :
  unsent_messages (heap Examples.st_agent 0) = [Examples.waiting]
  /\ sends_to 2 (trace_of (main_thread Examples.env_closed2 Examples.st_agent))
     = []
  /\ unsent_messages
       (heap (state_of (main_thread Examples.env_closed2 Examples.st_agent))
          0) = [].
Proof.
  split; [reflexivity|].
  destruct (disconnect_then_tick_loses_queue Examples.env_open
              Examples.env_closed2 Examples.st_agent 2 eq_refl eq_refl)
    as [_ [_ [H1 H2]]].
  split; [exact H1|].
  apply (H2 "agent_1" 0); reflexivity.
Defined.

(** X12 at a status request with the system connected on socket 1. *)
Lemma status_request_reaches_system_socket_witness :
  exists agent_statuses pre,
    all_sends
      (trace_of
         (main_thread Examples.env_open
            (state_of (on_message Examples.env_open 1
                         (Wellformed Examples.request_status)
                         Examples.st_system)))) =
    pre
    ++ [(1, VObj [("packet_type", VStr PACKET_TYPE_RETURN_AGENT_STATUS);
                  ("sender_id", VStr SERVER_SOCKET_ID);
                  ("receiver_id", VStr SYSTEM_SOCKET_ID);
                  ("data", VObj agent_statuses)])].
Proof.
  destruct (status_request_reaches_system_socket Examples.env_open
              Examples.env_open 1 Examples.request_status 1
              Examples.st_system eq_refl eq_refl eq_refl eq_refl)
    as [agent_statuses [pre [H _]]].
  exists agent_statuses, pre. exact H.
Defined.

(** X13 at a reply that names the parked request in [receiver_id]. *)
Lemma reply_falls_back_to_receiver_id_witness :
  all_responses
    (trace_of (on_message Examples.env_open 1
                 (Wellformed MoreExamples.reply_by_receiver)
                 Examples.st_pending)) =
  [(9, MoreExamples.reply_by_receiver)].
Proof.
  destruct (reply_falls_back_to_receiver_id Examples.env_open 1
              [("packet_type", VStr PACKET_TYPE_PROVIDER_DETAILS);
               ("sender_id", VStr SYSTEM_SOCKET_ID);
               ("receiver_id", VStr (uuidv4 Examples.rand0));
               ("data", VObj [("ok", VBool true)])]
              [("ok", VBool true)] (VStr (uuidv4 Examples.rand0)) 9
              Examples.st_pending eq_refl eq_refl eq_refl eq_refl eq_refl)
    as [_ H].
  unfold trace_of, MoreExamples.reply_by_receiver, Examples.packet.
  now rewrite H.
Defined.

(** X14 at the same reply without [data]: response 9 stays parked. *)
Lemma reply_without_data_is_dropped_witness :
  state_of (on_message Examples.env_open 1
              (Wellformed (VObj MoreExamples.reply_without_data))
              Examples.st_pending) = Examples.st_pending
  /\ Obj.get (uuidv4 Examples.rand0)
       (pending_provider_requests Examples.st_pending) = Some 9.
Proof.
  split; [|reflexivity].
  destruct (reply_without_data_is_dropped Examples.env_open 1
              MoreExamples.reply_without_data Examples.st_pending
              eq_refl eq_refl) as [_ H].
  unfold state_of. now rewrite H.
Defined.

(** X16 at a tick, a new system connection, a reply for another request
    and another provider request. *)
Lemma pending_entry_never_expires_witness :
  Obj.get (uuidv4 Examples.rand0)
    (pending_provider_requests
       (fst (run MoreExamples.some_events Examples.st_pending))) = Some 9.
Proof.
  apply pending_entry_never_expires; reflexivity.
Defined.

(** X20 at a recorded error followed by a successful fetch and a
    successful submit. *)
Lemma error_is_never_cleared_witness :
  Hook.View.error
    (Hook.useMephistoReview
       (Hook.settle_all
          [Hook.effect_settled (Hook.Fulfilled (Wellformed (VObj [])));
           Hook.submit_settled 0 (Hook.Fulfilled (Wellformed VNull))]
          (Hook.mkState VNull 0
             (Some (Hook.HookError "DATA_PARSE" SyntaxError))))) <> None.
Proof.
  apply error_is_never_cleared. discriminate.
Defined.

(** X21 at the state with one agent and one waiting packet. *)
Lemma tick_sends_agents_then_system_witness :
  trace_of (main_thread Examples.env_open Examples.st_agent) =
  [console_log (LogValue Examples.waiting);
   socket_send 2 Examples.waiting (ack 2 Examples.waiting);
   setTimeout fn_main_thread 50]
  /\ unsent_messages
       (heap (state_of (main_thread Examples.env_open Examples.st_agent)) 0)
     = [].
Proof.
  destruct (tick_sends_agents_then_system Examples.env_open Examples.st_agent
              eq_refl) as [_ [H1 [_ [_ [H2 _]]]]].
  split.
  - rewrite H1. reflexivity.
  - apply (H2 "agent_1" 0); [now left | reflexivity].
Defined.
